(** * homework2.py: a paginated image crawler

    A shallow embedding of [homework2.py] and the properties of its
    pipeline: page fetch, image-URL extraction, global deduplication,
    manifest writing and download.

    Conventions.
    - A Python [str] is a [string]; a character is an [ascii], read as a
      code point below 256.
    - A Python [dict] of attributes is a [gmap string string]; the set of
      seen URLs is a [gset string]; a Python [int] is a [Z].
    - Input and output are explicit: the state carries the files and the
      trace of the calls made so far, and the answers of the network and of
      the file system are oracles that may depend on that trace.
    - The functions of [urllib.parse] are part of the environment in the
      general theorems, where they may return or raise, and are the model of
      module [PyUrl] in the closed examples.
    - [print], [time.sleep] and the methods of [str] and of a parsed page
      do not raise. *)

From Stdlib Require Import ZArith List Ascii String Bool Lia DecimalString.
From Stdlib Require DecimalNat DecimalZ DecimalPos.
From stdpp Require Import gmap strings list.

Local Open Scope string_scope.
Local Open Scope char_scope.

(** ** Python string primitives *)

Module PyStr.

(** [len(s)] *)
Definition len (s : string) : nat := String.length s.

(** [not s]: the empty string is the only falsy one. *)
Definition is_empty (s : string) : bool :=
  match s with EmptyString => true | String _ _ => false end.

(** [c in chars] for a character. *)
Fixpoint mem (c : ascii) (chars : string) : bool :=
  match chars with
  | EmptyString => false
  | String d r => Ascii.eqb c d || mem c r
  end.

(** [all(p(c) for c in s)] *)
Fixpoint all_chars (p : ascii -> bool) (s : string) : bool :=
  match s with
  | EmptyString => true
  | String c r => p c && all_chars p r
  end.

Fixpoint map (f : ascii -> ascii) (s : string) : string :=
  match s with
  | EmptyString => EmptyString
  | String c r => String (f c) (map f r)
  end.

(** [s.lstrip(chars)] with the set of characters given as a predicate. *)
Fixpoint lstrip (p : ascii -> bool) (s : string) : string :=
  match s with
  | EmptyString => EmptyString
  | String c r => if p c then lstrip p r else s
  end.

(** [s.rstrip(chars)] *)
Fixpoint rstrip (p : ascii -> bool) (s : string) : string :=
  match s with
  | EmptyString => EmptyString
  | String c r =>
      let r' := rstrip p r in
      if is_empty r' && p c then EmptyString else String c r'
  end.

(** [s.strip(chars)] *)
Definition strip (p : ascii -> bool) (s : string) : string :=
  rstrip p (lstrip p s).

(** [s[:n]] for [n >= 0] *)
Fixpoint take (n : nat) (s : string) : string :=
  match n, s with
  | S k, String c r => String c (take k r)
  | _, _ => EmptyString
  end.

(** [s[n:]] for [n >= 0] *)
Fixpoint drop (n : nat) (s : string) : string :=
  match n, s with
  | S k, String _ r => drop k r
  | _, _ => s
  end.

(** [s.startswith(prefix)] *)
Fixpoint startswith (prefix s : string) : bool :=
  match prefix, s with
  | EmptyString, _ => true
  | String a p, String b r => Ascii.eqb a b && startswith p r
  | String _ _, EmptyString => false
  end.

(** [sub in s] *)
Fixpoint contains (sub s : string) : bool :=
  startswith sub s ||
  match s with
  | EmptyString => false
  | String _ r => contains sub r
  end.

(** [s.endswith(suffix)] *)
Fixpoint endswith (suffix s : string) : bool :=
  String.eqb suffix s ||
  match s with
  | EmptyString => false
  | String _ r => endswith suffix r
  end.

(** [s * n] *)
Fixpoint repeat (s : string) (n : nat) : string :=
  match n with
  | O => EmptyString
  | S k => s ++ repeat s k
  end.

(** The last character of a string, if any. *)
Fixpoint last (s : string) : option ascii :=
  match s with
  | EmptyString => None
  | String c EmptyString => Some c
  | String _ r => last r
  end.

(** [c.lower()] on code points below 256: the letters A-Z, and the
    Latin-1 capitals U+00C0..U+00DE except the multiplication sign. *)
Definition lower_char (c : ascii) : ascii :=
  let n := nat_of_ascii c in
  if ((65 <=? n) && (n <=? 90))%nat then ascii_of_nat (n + 32)
  else if ((192 <=? n) && (n <=? 222) && negb (n =? 215))%nat
       then ascii_of_nat (n + 32)
  else c.

(** [s.lower()] *)
Definition lower (s : string) : string := map lower_char s.

(** [c.isspace()] on code points below 256. *)
Definition isspace (c : ascii) : bool :=
  let n := nat_of_ascii c in
  ((9 <=? n) && (n <=? 13) || (28 <=? n) && (n <=? 32)
   || (n =? 133) || (n =? 160))%nat.

(** [str(n)] for a natural number. *)
Definition of_nat (n : nat) : string := NilZero.string_of_uint (Nat.to_uint n).

(** [str(z)] for an integer. *)
Definition of_Z (z : Z) : string := NilZero.string_of_int (Z.to_int z).

(** [f"{n:04d}"] for a natural number: zeros on the left up to width 4. *)
Definition pad04 (n : nat) : string :=
  let d := of_nat n in repeat "0" (4 - String.length d) ++ d.

(** [s.find(c)]: the index of the first occurrence of a character. *)
Fixpoint find (c : ascii) (s : string) : option nat :=
  match s with
  | EmptyString => None
  | String d r =>
      if Ascii.eqb c d then Some O
      else match find c r with Some i => Some (S i) | None => None end
  end.

(** [s.rfind(c)]: the index of the last occurrence of a character. *)
Fixpoint rfind (c : ascii) (s : string) : option nat :=
  match s with
  | EmptyString => None
  | String d r =>
      match rfind c r with
      | Some i => Some (S i)
      | None => if Ascii.eqb c d then Some O else None
      end
  end.

(** [s.replace(c, "")] for a character. *)
Fixpoint remove (c : ascii) (s : string) : string :=
  match s with
  | EmptyString => EmptyString
  | String d r => if Ascii.eqb c d then remove c r else String d (remove c r)
  end.

(** [s.split(c)] for a character separator. *)
Fixpoint split (c : ascii) (s : string) : list string :=
  match s with
  | EmptyString => [EmptyString]
  | String d r =>
      match split c r with
      | [] => [EmptyString]
      | w :: ws => if Ascii.eqb c d then EmptyString :: w :: ws
                   else String d w :: ws
      end
  end.

(** [sep.join(parts)] *)
Fixpoint join (sep : string) (parts : list string) : string :=
  match parts with
  | [] => EmptyString
  | [w] => w
  | w :: ws => w ++ sep ++ join sep ws
  end.

End PyStr.

(** ** [sanitize_filename] *)

(** The character class of the pattern given to [re.sub]: less-than,
    greater-than, colon, double quote (code 34), slash, backslash (code 92),
    vertical bar, question mark and asterisk. *)
Definition illegal_chars : string :=
  String "<" (String ">" (String ":" (String "034" (String "/"
    (String "092" (String "|" (String "?" (String "*" EmptyString)))))))).

Definition is_illegal (c : ascii) : bool := PyStr.mem c illegal_chars.

(** [re.sub] of that class by an underscore. *)
Definition re_sub_illegal (filename : string) : string :=
  PyStr.map (fun c => if is_illegal c then "_" else c) filename.

(** The argument of [filename.strip('. ')]. *)
Definition dot_or_space (c : ascii) : bool := PyStr.mem c ". ".

(** A character outside that class. *)
Definition legal (c : ascii) : bool := negb (is_illegal c).

Definition sanitize_filename (filename : string) : string :=
  let filename := re_sub_illegal filename in
  let filename := PyStr.strip dot_or_space filename in
  let filename := if PyStr.is_empty filename then "unnamed"%string else filename in
  PyStr.take 200 filename.

(** The value of [filename] just before the slice [[:200]]. *)
Definition before_take (x : string) : string :=
  let s := PyStr.strip dot_or_space (re_sub_illegal x) in
  if PyStr.is_empty s then "unnamed"%string else s.

(** ** [urllib.parse] and [os.path]

    A model of the CPython functions the crawler calls, on code points below
    256; [os.path] is [posixpath]. [None] stands for the [ValueError] that [urlsplit] raises when the
    host has a bracket without its counterpart; the further checks of a
    bracketed host that recent versions make are not represented. *)

Module PyUrl.

(** [a or b] on strings *)
Definition or_else (a b : string) : string :=
  if PyStr.is_empty a then b else a.

Definition in_list (s : string) (l : list string) : bool :=
  existsb (String.eqb s) l.

Definition uses_relative : list string :=
  [""; "ftp"; "http"; "gopher"; "nntp"; "imap"; "wais"; "file"; "https";
   "shttp"; "mms"; "prospero"; "rtsp"; "rtspu"; "sftp"; "svn"; "svn+ssh";
   "ws"; "wss"]%string.

Definition uses_netloc : list string :=
  [""; "ftp"; "http"; "gopher"; "nntp"; "telnet"; "imap"; "wais"; "file";
   "mms"; "https"; "shttp"; "snews"; "prospero"; "rtsp"; "rtspu"; "rsync";
   "svn"; "svn+ssh"; "sftp"; "nfs"; "git"; "git+ssh"; "ws"; "wss"]%string.

Definition uses_params : list string :=
  [""; "ftp"; "hdl"; "prospero"; "http"; "imap"; "https"; "shttp"; "rtsp";
   "rtspu"; "sip"; "sips"; "mms"; "sftp"; "tel"]%string.

Definition is_ascii_alpha (c : ascii) : bool :=
  let n := nat_of_ascii c in
  ((65 <=? n) && (n <=? 90) || (97 <=? n) && (n <=? 122))%nat.

Definition is_scheme_char (c : ascii) : bool :=
  let n := nat_of_ascii c in
  is_ascii_alpha c || ((48 <=? n) && (n <=? 57))%nat || PyStr.mem c "+-.".

(** The characters stripped from the left of a URL: C0 controls and space. *)
Definition c0_control_or_space (c : ascii) : bool := (nat_of_ascii c <=? 32)%nat.

(** [s.split(c, 1)] as a pair; the second part is empty when [c] is absent. *)
Definition split_once (c : ascii) (s : string) : string * string :=
  match PyStr.find c s with
  | Some i => (PyStr.take i s, PyStr.drop (S i) s)
  | None => (s, EmptyString)
  end.

(** The index of the first character of [s] that is one of [chars], or
    [len(s)]. *)
Fixpoint find_any (chars : string) (s : string) : nat :=
  match s with
  | EmptyString => O
  | String c r => if PyStr.mem c chars then O else S (find_any chars r)
  end.

Record SplitResult := {
  scheme : string;
  netloc : string;
  path : string;
  query : string;
  fragment : string
}.

(** [urlsplit(url, scheme)] *)
Definition urlsplit (url default_scheme : string) : option SplitResult :=
  let url := PyStr.lstrip c0_control_or_space url in
  let dscheme := PyStr.strip c0_control_or_space default_scheme in
  let url := PyStr.remove "010" (PyStr.remove "013" (PyStr.remove "009" url)) in
  let dscheme :=
    PyStr.remove "010" (PyStr.remove "013" (PyStr.remove "009" dscheme)) in
  let '(sch, url) :=
    match PyStr.find ":" url, url with
    | Some (S i), String c0 _ =>
        if is_ascii_alpha c0 && PyStr.all_chars is_scheme_char (PyStr.take (S i) url)
        then (PyStr.lower (PyStr.take (S i) url), PyStr.drop (S (S i)) url)
        else (dscheme, url)
    | _, _ => (dscheme, url)
    end in
  let '(nl, url) :=
    if PyStr.startswith "//" url then
      let rest := PyStr.drop 2 url in
      let d := find_any "/?#" rest in
      (PyStr.take d rest, PyStr.drop d rest)
    else (EmptyString, url) in
  if negb (Bool.eqb (PyStr.mem "[" nl) (PyStr.mem "]" nl)) then None
  else
    let '(url, frag) := split_once "#" url in
    let '(url, q) := split_once "?" url in
    Some {| scheme := sch; netloc := nl; path := url; query := q;
            fragment := frag |}.

(** [_splitparams(url)] *)
Definition splitparams (url : string) : string * string :=
  match PyStr.rfind "/" url with
  | Some j =>
      match PyStr.find ";" (PyStr.drop j url) with
      | Some i => (PyStr.take (j + i) url, PyStr.drop (S (j + i)) url)
      | None => (url, EmptyString)
      end
  | None =>
      match PyStr.find ";" url with
      | Some i => (PyStr.take i url, PyStr.drop (S i) url)
      | None => (PyStr.take (PyStr.len url - 1) url, url)
      end
  end.

Record ParseResult := {
  p_scheme : string;
  p_netloc : string;
  p_path : string;
  p_params : string;
  p_query : string;
  p_fragment : string
}.

(** [urlparse(url, scheme)] *)
Definition urlparse (url default_scheme : string) : option ParseResult :=
  match urlsplit url default_scheme with
  | None => None
  | Some r =>
      let '(u, params) :=
        if in_list (scheme r) uses_params && PyStr.mem ";" (path r)
        then splitparams (path r) else (path r, EmptyString) in
      Some {| p_scheme := scheme r; p_netloc := netloc r; p_path := u;
              p_params := params; p_query := query r; p_fragment := fragment r |}
  end.

(** [urlunsplit] after the step of [urlunparse] that puts the parameters
    back. *)
Definition urlunparse (r : ParseResult) : string :=
  let url :=
    if PyStr.is_empty (p_params r) then p_path r
    else (p_path r ++ ";" ++ p_params r)%string in
  let url :=
    if negb (PyStr.is_empty (p_netloc r))
       || (negb (PyStr.is_empty (p_scheme r)) && in_list (p_scheme r) uses_netloc
           && negb (PyStr.startswith "//" url))
    then
      let url :=
        if negb (PyStr.is_empty url) && negb (PyStr.startswith "/" url)
        then ("/" ++ url)%string else url in
      ("//" ++ p_netloc r ++ url)%string
    else url in
  let url :=
    if PyStr.is_empty (p_scheme r) then url
    else (p_scheme r ++ ":" ++ url)%string in
  let url :=
    if PyStr.is_empty (p_query r) then url
    else (url ++ "?" ++ p_query r)%string in
  if PyStr.is_empty (p_fragment r) then url
  else (url ++ "#" ++ p_fragment r)%string.

(** [segments[1:-1] = filter(None, segments[1:-1])] *)
Definition drop_empty_middle (segments : list string) : list string :=
  match segments with
  | first :: (_ :: _) as rest =>
      (first :: filter (fun w => negb (PyStr.is_empty w)) (removelast rest)
         ++ [List.last rest EmptyString])%list
  | _ => segments
  end.

(** The loop of [urljoin] that removes the dot segments. *)
Definition resolve_step (resolved : list string) (seg : string) : list string :=
  if String.eqb seg ".." then removelast resolved
  else if String.eqb seg "." then resolved
  else (resolved ++ [seg])%list.

(** The part of [urljoin] that follows the two calls of [urlparse]. *)
Definition join_parsed (url : string) (b u : ParseResult) : string :=
  if negb (String.eqb (p_scheme u) (p_scheme b))
     || negb (in_list (p_scheme u) uses_relative)
  then url
  else if in_list (p_scheme u) uses_netloc && negb (PyStr.is_empty (p_netloc u))
  then urlunparse u
  else
    let nl := if in_list (p_scheme u) uses_netloc then p_netloc b else p_netloc u in
    if PyStr.is_empty (p_path u) && PyStr.is_empty (p_params u) then
      urlunparse
        {| p_scheme := p_scheme u; p_netloc := nl; p_path := p_path b;
           p_params := p_params b;
           p_query := if PyStr.is_empty (p_query u) then p_query b else p_query u;
           p_fragment := p_fragment u |}
    else
      let base_parts := PyStr.split "/" (p_path b) in
      let base_parts :=
        if PyStr.is_empty (List.last base_parts EmptyString)
        then base_parts else removelast base_parts in
      let segments :=
        if PyStr.startswith "/" (p_path u) then PyStr.split "/" (p_path u)
        else drop_empty_middle (base_parts ++ PyStr.split "/" (p_path u))%list in
      let resolved := fold_left resolve_step segments [] in
      let resolved :=
        let l := List.last segments EmptyString in
        if String.eqb l "." || String.eqb l ".."
        then (resolved ++ [EmptyString])%list else resolved in
      urlunparse
        {| p_scheme := p_scheme u; p_netloc := nl;
           p_path := or_else (PyStr.join "/" resolved) "/";
           p_params := p_params u; p_query := p_query u;
           p_fragment := p_fragment u |}.

(** [urljoin(base, url)] *)
Definition urljoin (base url : string) : option string :=
  if PyStr.is_empty base then Some url
  else if PyStr.is_empty url then Some base
  else
    match urlparse base EmptyString with
    | None => None
    | Some b =>
        match urlparse url (p_scheme b) with
        | None => None
        | Some u => Some (join_parsed url b u)
        end
    end.

(** [urlparse(url).path] *)
Definition urlparse_path (url : string) : option string :=
  match urlparse url EmptyString with
  | None => None
  | Some r => Some (p_path r)
  end.

(** [os.path.basename(p)] of [posixpath]: what follows the last slash. *)
Definition basename (p : string) : string :=
  match PyStr.rfind "/" p with
  | Some i => PyStr.drop (S i) p
  | None => p
  end.

(** [os.path.dirname(p)] of [posixpath] *)
Definition dirname (p : string) : string :=
  match PyStr.rfind "/" p with
  | Some i =>
      let head := PyStr.take (S i) p in
      if PyStr.is_empty (PyStr.lstrip (Ascii.eqb "/") head) then head
      else PyStr.rstrip (Ascii.eqb "/") head
  | None => EmptyString
  end.

(** [os.path.join(a, b)] of [posixpath] *)
Definition path_join (a b : string) : string :=
  if PyStr.startswith "/" b then b
  else if PyStr.is_empty a || PyStr.endswith "/" a then (a ++ b)%string
  else (a ++ "/" ++ b)%string.

End PyUrl.

(** ** The data model *)

(** An [img] element, as far as the crawler looks at it: its attributes,
    and the stripped text ([get_text(strip=True)]) of the nearest enclosing
    [a] element and of the nearest enclosing [div] element, when there is
    one. *)
Record Tag := {
  attrs : gmap string string;
  parent_a_text : option string;
  parent_div_text : option string
}.

(** A parsed page: the elements [find_all("img")] returns, in document
    order. *)
Record BeautifulSoup := { find_all_img : list Tag }.

(** The dictionary with the keys [url], [title] and [filename]. *)
Record ImageRecord := {
  url : string;
  title : string;
  filename : string
}.

(** The exceptions of the model; all are subclasses of [Exception]. *)
Inductive exn :=
  RequestException | HTTPError | OSError | ValueError | AssertionError.

(** The outcome of a call: a value, or an exception on its way up. *)
Inductive outcome (A : Type) :=
| Ret (a : A)
| Raise (e : exn).
Arguments Ret {A} a.
Arguments Raise {A} e.

Definition obind {A B} (o : outcome A) (k : A -> outcome B) : outcome B :=
  match o with
  | Ret a => k a
  | Raise e => Raise e
  end.

Notation "x <~ o ;; k" := (obind o (fun x => k))
  (at level 100, o at next level, right associativity).

(** What [requests.get] returns: whether [raise_for_status] raises;
    whether settling the encoding and building
    [BeautifulSoup(response.text, "html.parser")] raise ([html.parser]
    raises [AssertionError] on some malformed declarations), and the page
    built when they do not; what [iter_content] yields, with the exception
    it raises after the last chunk, if any. *)
Record Response := {
  status_error : option exn;
  parse_error : option exn;
  page : BeautifulSoup;
  content : list string;
  content_error : option exn
}.

(** The messages printed. *)
Inductive log_msg :=
| LogFetchFailed (u : string) (e : exn)
| LogDownloadFailed (u : string) (e : exn)
| LogCrawlStart (max_pages : Z)
| LogPageVisit (page_num max_pages : Z) (page_url : string)
| LogPageSkipped (page_num : Z)
| LogFound (n : nat)
| LogImage (title50 : string)
| LogTotal (n : nat)
| LogManifestSaved (json_path : string)
| LogDownloadStart
| LogDownloading (idx total : nat) (title50 : string)
| LogDownloadDone (success_count total : nat).

(** The calls that reach outside the process. Delays are in milliseconds. *)
Inductive event :=
| EvGet (u : string) (timeout : N) (stream : bool)
| EvMakedirs (path : string)
| EvOpen (path : string)
| EvWrite (path : string) (data : string)
| EvClose (path : string)
| EvSleep (ms : N)
| EvPrint (m : log_msg).

(** The environment: the library functions, which may raise, and the answers
    of the network and of the file system, which may depend on the calls
    made so far. *)
Record World := {
  urljoin : string -> string -> outcome string;
  urlparse_path : string -> outcome string;
  json_dumps : list ImageRecord -> string;
  requests_get : list event -> string -> outcome Response;
  os_error : list event -> event -> bool
}.

(** The files written so far and the trace of calls, oldest first. *)
Record State := {
  files : gmap string string;
  trace : list event
}.

(** ** Constants *)

Definition SAVE_DIR : string := "downloaded_images".
Definition MAX_PAGES : Z := 10.

(** [BASE_URL.format(page_num)] *)
Definition BASE_URL_format (page_num : Z) : string :=
  "https://www.sucai999.com/pic/cate/265_324-" ++ PyStr.of_Z page_num ++ ".html".

(** [range(1, stop)] *)
Definition range1 (stop : Z) : list Z :=
  List.map Z.of_nat (seq 1 (Z.to_nat (stop - 1))).

(** ** A monad for state and exceptions *)

Definition M (A : Type) : Type := State -> outcome A * State.

Definition ret {A} (a : A) : M A := fun st => (Ret a, st).

Definition raise {A} (e : exn) : M A := fun st => (Raise e, st).

(** A call that does not touch the state. *)
Definition lift {A} (o : outcome A) : M A := fun st => (o, st).

Definition bind {A B} (m : M A) (k : A -> M B) : M B :=
  fun st =>
    match m st with
    | (Ret a, st') => k a st'
    | (Raise e, st') => (Raise e, st')
    end.

Notation "x <- m ;; k" := (bind m (fun x => k))
  (at level 100, m at next level, right associativity).
Notation "m ;; k" := (bind m (fun _ => k))
  (at level 100, right associativity).

(** [try: m except Exception as e: handler e] *)
Definition try_except {A} (m : M A) (handler : exn -> M A) : M A :=
  fun st =>
    match m st with
    | (Ret a, st') => (Ret a, st')
    | (Raise e, st') => handler e st'
    end.

(** [try: m finally: cleanup]; an exception of the cleanup replaces the
    pending one. *)
Definition try_finally {A} (m : M A) (cleanup : M unit) : M A :=
  fun st =>
    match m st with
    | (r, st') =>
        match cleanup st' with
        | (Ret _, st'') => (r, st'')
        | (Raise e, st'') => (Raise e, st'')
        end
    end.

(** A [for] loop that carries the local variables [s] of its body. *)
Fixpoint for_each {A S} (l : list A) (body : S -> A -> M S) (s : S) : M S :=
  match l with
  | [] => ret s
  | x :: r => s' <- body s x ;; for_each r body s'
  end.

Definition emit (e : event) : M unit :=
  fun st => (Ret tt, {| files := files st; trace := (trace st ++ [e])%list |}).

Definition print (m : log_msg) : M unit := emit (EvPrint m).

Definition sleep (ms : N) : M unit := emit (EvSleep ms).

Definition of_option (o : option exn) : M unit :=
  match o with
  | Some e => raise e
  | None => ret tt
  end.

Definition set_file (path data : string) : M unit :=
  fun st => (Ret tt, {| files := <[path := data]> (files st); trace := trace st |}).

Definition append_file (path data : string) : M unit :=
  fun st =>
    (Ret tt, {| files := <[path := (default EmptyString (files st !! path) ++ data)%string]> (files st);
                trace := trace st |}).

(** ** The program *)

Section Program.

Variable w : World.

(** [requests.get(u, headers=HEADERS, timeout=..., stream=...)] *)
Definition get (u : string) (timeout : N) (stream : bool) : M Response :=
  fun st =>
    let st' := {| files := files st;
                  trace := (trace st ++ [EvGet u timeout stream])%list |} in
    (requests_get w (trace st) u, st').

(** A call of the file system: it is recorded, and raises [OSError] when the
    environment says so. *)
Definition os_call (e : event) : M unit :=
  fun st =>
    let st' := {| files := files st; trace := (trace st ++ [e])%list |} in
    if os_error w (trace st) e then (Raise OSError, st') else (Ret tt, st').

(** [with open(path, mode) as f: body], for the modes [w] and [wb], which
    truncate the file. *)
Definition with_open {A} (path : string) (body : M A) : M A :=
  os_call (EvOpen path) ;;
  set_file path EmptyString ;;
  try_finally body (os_call (EvClose path)).

(** [f.write(data)] on the file opened at [path]. *)
Definition write (path data : string) : M unit :=
  os_call (EvWrite path data) ;;
  append_file path data.

(** *** [fetch_page] *)

Definition fetch_page (u : string) : M (option BeautifulSoup) :=
  try_except
    (response <- get u 15 false ;;
     of_option (status_error response) ;;
     of_option (parse_error response) ;;
     ret (Some (page response)))
    (fun e =>
       print (LogFetchFailed u e) ;;
       ret None).

(** *** [extract_image_urls] *)

(** [img_tag.get(key)] *)
Definition tag_get (img_tag : Tag) (key : string) : option string :=
  attrs img_tag !! key.

(** The truth value of [img_tag.get(key)]. *)
Definition truthy (o : option string) : bool :=
  match o with
  | Some v => negb (PyStr.is_empty v)
  | None => false
  end.

(** The value of [img_url] before the test [if not img_url]; [None] is the
    Python [None]. *)
Definition source_of (img_tag : Tag) : option string :=
  if truthy (tag_get img_tag "data-original") then tag_get img_tag "data-original"
  else if truthy (tag_get img_tag "data-src") then tag_get img_tag "data-src"
  else if truthy (tag_get img_tag "src") then tag_get img_tag "src"
  else None.

Definition skip_words : list string := ["logo"; "icon"; "avatar"; "banner"]%string.

(** [any(skip in img_url.lower() for skip in [...])] *)
Definition is_skipped (img_url : string) : bool :=
  existsb (fun skip => PyStr.contains skip (PyStr.lower img_url)) skip_words.

(** The three branches that make the URL absolute. *)
Definition absolute_url (base_url img_url : string) : outcome string :=
  if PyStr.startswith "//" img_url then Ret ("https:" ++ img_url)
  else if PyStr.startswith "/" img_url then urljoin w base_url img_url
  else if negb (PyStr.startswith "http" img_url) then urljoin w base_url img_url
  else Ret img_url.

(** [img_tag.find_parent("a") or img_tag.find_parent("div")], then
    [get_text(strip=True)]; a [Tag] is always truthy. *)
Definition parent_text (img_tag : Tag) : option string :=
  match parent_a_text img_tag with
  | Some t => Some t
  | None => parent_div_text img_tag
  end.

(** The title, given the absolute URL and [len(image_data_list)]. *)
Definition title_of (img_tag : Tag) (img_url : string) (n : nat) : outcome string :=
  let title :=
    PyStr.strip PyStr.isspace
      (PyUrl.or_else
         (PyUrl.or_else (default EmptyString (tag_get img_tag "alt"))
                        (default EmptyString (tag_get img_tag "title")))
         EmptyString) in
  let title :=
    if PyStr.is_empty title then
      match parent_text img_tag with
      | Some title_text =>
          if negb (PyStr.is_empty title_text) && (PyStr.len title_text <? 100)%nat
          then title_text else title
      | None => title
      end
    else title in
  if PyStr.is_empty title then
    parsed_path <~ urlparse_path w img_url ;;
    Ret (PyUrl.or_else (PyUrl.basename parsed_path) ("image_" ++ PyStr.of_nat n))
  else Ret title.

(** The file name, given the absolute URL and [len(image_data_list)]. *)
Definition filename_of (img_url : string) (n : nat) : outcome string :=
  parsed_path <~ urlparse_path w img_url ;;
  Ret (PyUrl.or_else (PyUrl.basename parsed_path)
         ("image_" ++ PyStr.of_nat n ++ ".jpg")).

(** The record an element yields, or [None] when the loop goes on to the
    next element without appending anything. *)
Definition record_of (base_url : string) (img_tag : Tag) (n : nat)
  : outcome (option ImageRecord) :=
  match source_of img_tag with
  | None => Ret None
  | Some img_url =>
      if is_skipped img_url then Ret None
      else
        img_url <~ absolute_url base_url img_url ;;
        title <~ title_of img_tag img_url n ;;
        filename <~ filename_of img_url n ;;
        Ret (Some {| url := img_url; title := title; filename := filename |})
  end.

(** The body of the loop over the elements. *)
Definition extract_step (base_url : string) (image_data_list : list ImageRecord)
  (img_tag : Tag) : outcome (list ImageRecord) :=
  o <~ record_of base_url img_tag (List.length image_data_list) ;;
  match o with
  | None => Ret image_data_list
  | Some r => Ret (image_data_list ++ [r])%list
  end.

(** The loop over the elements, from the list built so far. *)
Fixpoint extract_loop (base_url : string) (tags : list Tag)
  (image_data_list : list ImageRecord) : outcome (list ImageRecord) :=
  match tags with
  | [] => Ret image_data_list
  | img_tag :: rest =>
      image_data_list <~ extract_step base_url image_data_list img_tag ;;
      extract_loop base_url rest image_data_list
  end.

Definition extract_image_urls (page_soup : BeautifulSoup) (base_url : string)
  : outcome (list ImageRecord) :=
  extract_loop base_url (find_all_img page_soup) [].

(** *** [download_image] *)

(** The loop over [response.iter_content(chunk_size=8192)]. *)
Definition write_chunks (save_path : string) (response : Response) : M unit :=
  for_each (content response)
    (fun _ chunk =>
       if PyStr.is_empty chunk then ret tt else write save_path chunk) tt ;;
  of_option (content_error response).

(** The block under [try]. *)
Definition download_body (img_url save_path : string) : M bool :=
  response <- get img_url 30 true ;;
  of_option (status_error response) ;;
  os_call (EvMakedirs (PyUrl.dirname save_path)) ;;
  with_open save_path (write_chunks save_path response) ;;
  ret true.

Definition download_image (img_url save_path : string) : M bool :=
  try_except
    (download_body img_url save_path)
    (fun e =>
       print (LogDownloadFailed img_url e) ;;
       ret false).

(** *** [crawl_images] *)

(** The local variables [all_image_data] and [seen_urls]. *)
Record Crawl := {
  all_image_data : list ImageRecord;
  seen_urls : gset string
}.

(** The body of the loop over the records of one page. *)
Definition merge_step (c : Crawl) (img_data : ImageRecord) : M Crawl :=
  let img_url := url img_data in
  if decide (img_url ∈ seen_urls c) then ret c
  else
    let c' := {| all_image_data := (all_image_data c ++ [img_data])%list;
                 seen_urls := seen_urls c ∪ {[ img_url ]} |} in
    print (LogImage (PyStr.take 50 (title img_data))) ;;
    ret c'.

(** The body of the loop over the page numbers. A [BeautifulSoup] object is
    always truthy, so [not page_soup] holds for [None] only. *)
Definition page_step (max_pages : Z) (c : Crawl) (page_num : Z) : M Crawl :=
  let page_url := BASE_URL_format page_num in
  print (LogPageVisit page_num max_pages page_url) ;;
  page_soup <- fetch_page page_url ;;
  match page_soup with
  | None =>
      print (LogPageSkipped page_num) ;;
      ret c
  | Some page_soup =>
      image_data_list <- lift (extract_image_urls page_soup page_url) ;;
      print (LogFound (List.length image_data_list)) ;;
      c' <- for_each image_data_list merge_step c ;;
      sleep 1000 ;;
      ret c'
  end.

Definition crawl_images (max_pages : Z) : M (list ImageRecord) :=
  print (LogCrawlStart max_pages) ;;
  c <- for_each (range1 (max_pages + 1)) (page_step max_pages)
         {| all_image_data := []; seen_urls := ∅ |} ;;
  print (LogTotal (List.length (all_image_data c))) ;;
  ret (all_image_data c).

(** *** [save_images] *)

Definition image_extensions : list string :=
  [".jpg"; ".jpeg"; ".png"; ".gif"; ".webp"]%string.

(** The destination of the record at position [idx]. *)
Definition save_path_of (idx : nat) (img_data : ImageRecord) : string :=
  let filename := sanitize_filename (filename img_data) in
  let filename :=
    if existsb (fun ext => PyStr.endswith ext (PyStr.lower filename)) image_extensions
    then filename else filename ++ ".jpg" in
  PyUrl.path_join SAVE_DIR (PyStr.pad04 idx ++ "_" ++ filename).

(** The local variables [idx] and [success_count] of the download loop. *)
Record Progress := {
  idx : nat;
  success_count : nat
}.

(** The body of the loop over [enumerate(image_data_list, start=1)]. *)
Definition download_step (total : nat) (p : Progress) (img_data : ImageRecord)
  : M Progress :=
  let save_path := save_path_of (idx p) img_data in
  print (LogDownloading (idx p) total (PyStr.take 50 (title img_data))) ;;
  ok <- download_image (url img_data) save_path ;;
  sleep 500 ;;
  ret {| idx := S (idx p);
         success_count := if ok then S (success_count p) else success_count p |}.

Definition json_path : string := PyUrl.path_join SAVE_DIR "image_data.json".

Definition save_images (image_data_list : list ImageRecord) (download : bool)
  : M unit :=
  os_call (EvMakedirs SAVE_DIR) ;;
  with_open json_path (write json_path (json_dumps w image_data_list)) ;;
  print (LogManifestSaved json_path) ;;
  if negb download then ret tt
  else
    print LogDownloadStart ;;
    p <- for_each image_data_list (download_step (List.length image_data_list))
           {| idx := 1; success_count := 0 |} ;;
    print (LogDownloadDone (success_count p) (List.length image_data_list)).

End Program.

(** ** Reference notions and concrete environments *)

(** A URL that starts with one of the two schemes, followed by the marker of
    an authority. *)
Definition is_http_url (u : string) : bool :=
  PyStr.startswith "http://" u || PyStr.startswith "https://" u.

(** The rule of the merge, as the specification words it: a record is kept
    only if its URL is not in the set, and its URL enters the set when it is
    kept. *)
Fixpoint accept_new (seen : gset string) (l : list ImageRecord) : list ImageRecord :=
  match l with
  | [] => []
  | r :: l' =>
      if decide (url r ∈ seen) then accept_new seen l'
      else r :: accept_new (seen ∪ {[ url r ]}) l'
  end.

(** The URLs requested, in order. *)
Fixpoint get_urls (t : list event) : list string :=
  match t with
  | [] => []
  | EvGet u _ _ :: t' => u :: get_urls t'
  | _ :: t' => get_urls t'
  end.

(** The pauses taken, in order. *)
Fixpoint sleeps (t : list event) : list N :=
  match t with
  | [] => []
  | EvSleep ms :: t' => ms :: sleeps t'
  | _ :: t' => sleeps t'
  end.

(** The calls of the file system. *)
Definition is_os_call (e : event) : bool :=
  match e with
  | EvMakedirs _ | EvOpen _ | EvWrite _ _ | EvClose _ => true
  | _ => false
  end.

Definition is_get (e : event) : bool :=
  match e with
  | EvGet _ _ _ => true
  | _ => false
  end.

(** The state before anything happened. *)
Definition initial : State := {| files := ∅; trace := [] |}.

(** [json.dumps] of a string with [ensure_ascii=False]. *)
Definition hex_digit (n : nat) : ascii :=
  if (n <? 10)%nat then ascii_of_nat (48 + n) else ascii_of_nat (87 + n).

Definition json_escape_char (c : ascii) : string :=
  let n := nat_of_ascii c in
  if (n =? 34)%nat then String "092" (String "034" EmptyString)
  else if (n =? 92)%nat then String "092" (String "092" EmptyString)
  else if (n =? 8)%nat then String "092" "b"
  else if (n =? 12)%nat then String "092" "f"
  else if (n =? 10)%nat then String "092" "n"
  else if (n =? 13)%nat then String "092" "r"
  else if (n =? 9)%nat then String "092" "t"
  else if (n <? 32)%nat then
    String "092" ("u00" ++ String (hex_digit (n / 16)) (String (hex_digit (n mod 16)) EmptyString))
  else String c EmptyString.

Fixpoint json_escape (s : string) : string :=
  match s with
  | EmptyString => EmptyString
  | String c r => json_escape_char c ++ json_escape r
  end.

Definition json_string (s : string) : string :=
  String "034" (json_escape s ++ String "034" EmptyString).

Definition newline : string := String "010" EmptyString.

(** One dictionary at the indentation of a list item. *)
Definition json_record (r : ImageRecord) : string :=
  "  {" ++ newline ++
  "    " ++ json_string "url" ++ ": " ++ json_string (url r) ++ "," ++ newline ++
  "    " ++ json_string "title" ++ ": " ++ json_string (title r) ++ "," ++ newline ++
  "    " ++ json_string "filename" ++ ": " ++ json_string (filename r) ++ newline ++
  "  }".

(** [json.dumps(records, ensure_ascii=False, indent=2)] *)
Definition py_json_dumps (records : list ImageRecord) : string :=
  match records with
  | [] => "[]"
  | _ => "[" ++ newline ++ PyStr.join ("," ++ newline) (List.map json_record records)
         ++ newline ++ "]"
  end.

(** The result of a library function of the model: [None] is a
    [ValueError]. *)
Definition of_py {A} (o : option A) : outcome A :=
  match o with
  | Some a => Ret a
  | None => Raise ValueError
  end.

(** The environment with the library functions of CPython, over given
    answers of the network and of the file system. *)
Definition py_world (net : list event -> string -> outcome Response)
  (disk : list event -> event -> bool) : World :=
  {| urljoin := fun base u => of_py (PyUrl.urljoin base u);
     urlparse_path := fun u => of_py (PyUrl.urlparse_path u);
     json_dumps := py_json_dumps;
     requests_get := net;
     os_error := disk |}.

(** A network on which every request fails, and one that serves the same
    page and payload whatever is asked. *)
Definition offline : list event -> string -> outcome Response :=
  fun _ _ => Raise RequestException.

Definition serving (r : Response) : list event -> string -> outcome Response :=
  fun _ _ => Ret r.

(** A file system on which no call fails. *)
Definition sound_disk : list event -> event -> bool := fun _ _ => false.

(** An [img] element with the given attributes and no enclosing [a] or
    [div]. *)
Definition img (attributes : list (string * string)) : Tag :=
  {| attrs := list_to_map attributes; parent_a_text := None; parent_div_text := None |}.

(** The state after the calls [t], the files being the same. *)
Definition extend (st : State) (t : list event) : State :=
  {| files := files st; trace := (trace st ++ t)%list |}.

(** The local variables of the crawl after the records [l] went through the
    merge. *)
Definition merged (c : Crawl) (l : list ImageRecord) : Crawl :=
  {| all_image_data := (all_image_data c ++ accept_new (seen_urls c) l)%list;
     seen_urls := seen_urls c ∪ list_to_set (List.map url l) |}.

(** What one page contributes: nothing when the fetch fails, the extracted
    records of the page served otherwise. *)
Definition page_result (w : World) (page_num : Z) (l : list ImageRecord) : Prop :=
  l = [] \/
  exists page_soup,
    extract_image_urls w page_soup (BASE_URL_format page_num) = Ret l.

(** The loop invariant of the crawl: the accepted URLs are pairwise
    distinct and the set holds exactly them. *)
Definition crawl_inv (c : Crawl) : Prop :=
  NoDup (List.map url (all_image_data c)) /\
  forall u, u ∈ seen_urls c <-> In u (List.map url (all_image_data c)).

(** The result of [fetch_page] in terms of the answer of the network. *)
Definition fetched (w : World) (u : string) (st : State) : option BeautifulSoup :=
  match requests_get w (trace st) u with
  | Raise _ => None
  | Ret r =>
      match status_error r, parse_error r with
      | None, None => Some (page r)
      | _, _ => None
      end
  end.

(** What the page [page_num] contributes, and the pauses taken for it, when
    the loop reaches it in the state [st]. *)
Definition page_outcome (w : World) (max_pages page_num : Z) (st : State)
  : outcome (list ImageRecord) * list N :=
  let page_url := BASE_URL_format page_num in
  match fetched w page_url
          (extend st [EvPrint (LogPageVisit page_num max_pages page_url)]) with
  | None => (Ret [], [])
  | Some page_soup =>
      match extract_image_urls w page_soup page_url with
      | Ret l => (Ret l, [1000%N])
      | Raise e => (Raise e, [])
      end
  end.

(** A computation that only adds to the trace. *)
Definition grows {A} (m : M A) : Prop :=
  forall st, exists t, trace (snd (m st)) = (trace st ++ t)%list.

(** Every call of the file system in [t], made after the calls [h],
    succeeded. *)
Fixpoint calls_ok (w : World) (h t : list event) : Prop :=
  match t with
  | [] => True
  | e :: t' =>
      (is_os_call e = true -> os_error w h e = false) /\
      calls_ok w (h ++ [e]) t'
  end.

(** The bytes of a response. *)
Definition payload (r : Response) : string :=
  fold_right String.append EmptyString (content r).

(** The writes of the chunks that are not empty. *)
Definition chunk_writes (save_path : string) (chunks : list string) : list event :=
  List.map (EvWrite save_path)
    (List.filter (fun chunk => negb (PyStr.is_empty chunk)) chunks).

(** The calls of a download that succeeds, after the request. *)
Definition download_calls (save_path : string) (r : Response) : list event :=
  (EvMakedirs (PyUrl.dirname save_path) :: EvOpen save_path ::
   chunk_writes save_path (content r) ++ [EvClose save_path])%list.

(** The calls of [save_images] up to the message that follows the
    manifest. *)
Definition manifest_calls (w : World) (image_data_list : list ImageRecord)
  : list event :=
  [EvMakedirs SAVE_DIR; EvOpen json_path;
   EvWrite json_path (json_dumps w image_data_list); EvClose json_path;
   EvPrint (LogManifestSaved json_path)].

(** A response with the payload [abcde] in three chunks, the second one
    empty, and a page without images. *)
Definition sample_response : Response :=
  {| status_error := None; parse_error := None;
     page := {| find_all_img := [] |};
     content := ["abc"; ""; "de"]%string;
     content_error := None |}.

(** A page with one image, and a page whose only image names a host made of
    an opening bracket. *)
Definition one_image_page : Response :=
  {| status_error := None; parse_error := None;
     page := {| find_all_img := [img [("src", "https://cdn.example.com/x.jpg")]%string] |};
     content := [];
     content_error := None |}.

Definition bad_bracket_page : Response :=
  {| status_error := None; parse_error := None;
     page := {| find_all_img := [img [("src", "//[")]%string] |};
     content := [];
     content_error := None |}.

(** A page whose images are named relative to the page and to its host,
    and a response that passes the status check and that the parser
    rejects. *)
Definition relative_image_page : Response :=
  {| status_error := None; parse_error := None;
     page := {| find_all_img :=
                  [img [("src", "/p/a.jpg")]%string;
                   img [("data-src", "img/b.jpg")]%string;
                   img [("src", "../x/c.jpg")]%string] |};
     content := [];
     content_error := None |}.

Definition rejected_page : Response :=
  {| status_error := None; parse_error := Some AssertionError;
     page := {| find_all_img := [img [("src", "/p/a.jpg")]%string] |};
     content := [];
     content_error := None |}.

(** ** Notions for the further properties *)

(** [c.isdigit()] on the characters 0 to 9. *)
Definition is_digit (c : ascii) : bool :=
  let n := nat_of_ascii c in ((48 <=? n) && (n <=? 57))%nat.

(** The elements for which the loop of [extract_image_urls] reaches the
    code that builds a record: a source is there and passes the skip
    test. *)
Definition accepted (img_tag : Tag) : bool :=
  match source_of img_tag with
  | Some v => negb (is_skipped v)
  | None => false
  end.

(** A computation whose final state is related to its initial state by
    [R]. *)
Definition preserves (R : State -> State -> Prop) {A} (m : M A) : Prop :=
  forall st, R st (snd (m st)).

(** The trace only grew, by calls that satisfy [P]. *)
Definition emits (P : event -> bool) (st st' : State) : Prop :=
  exists t, trace st' = (trace st ++ t)%list /\ forallb P t = true.

(** The files whose path satisfies [P] are as they were. *)
Definition frame (P : string -> Prop) (st st' : State) : Prop :=
  forall q, P q -> files st' !! q = files st !! q.

Definition is_sleep (e : event) : bool :=
  match e with
  | EvSleep _ => true
  | _ => false
  end.

(** Neither a request nor a pause. *)
Definition is_quiet (e : event) : bool := negb (is_get e) && negb (is_sleep e).

(** A path outside [SAVE_DIR]. *)
Definition outside_save_dir (q : string) : Prop :=
  PyStr.startswith "downloaded_images/" q = false.

(** * Properties *)

(** ** Strings *)

Section StringFacts.

Variable p : ascii -> bool.

Lemma take_length n s : String.length (PyStr.take n s) = Nat.min n (String.length s).
Proof.
  revert s; induction n as [|n IH]; intros [|c r]; simpl; auto.
Qed.

Lemma take_all n s : String.length s <= n -> PyStr.take n s = s.
Proof.
  revert s; induction n as [|n IH]; intros [|c r]; simpl; intros H;
    try reflexivity; try lia.
  f_equal. apply IH. lia.
Qed.

Lemma lstrip_head s :
  PyStr.lstrip p s = EmptyString \/
  exists c r, PyStr.lstrip p s = String c r /\ p c = false.
Proof.
  induction s as [|c r IH]; simpl; [now left|].
  destruct (p c) eqn:E; [exact IH|].
  right. now exists c, r.
Qed.

Lemma lstrip_fixed c r : p c = false -> PyStr.lstrip p (String c r) = String c r.
Proof. intros H. simpl. now rewrite H. Qed.

Lemma lstrip_length s : String.length (PyStr.lstrip p s) <= String.length s.
Proof.
  induction s as [|c r IH]; simpl; [lia|].
  destruct (p c); simpl; lia.
Qed.

Lemma rstrip_cons c r :
  p c = false -> PyStr.rstrip p (String c r) = String c (PyStr.rstrip p r).
Proof.
  intros H. simpl. rewrite H. now rewrite andb_false_r.
Qed.

Lemma rstrip_length s : String.length (PyStr.rstrip p s) <= String.length s.
Proof.
  induction s as [|c r IH]; simpl; [lia|].
  destruct (PyStr.is_empty (PyStr.rstrip p r) && p c); simpl; lia.
Qed.

Lemma rstrip_last s c : PyStr.last (PyStr.rstrip p s) = Some c -> p c = false.
Proof.
  induction s as [|d r IH]; simpl; [discriminate|].
  destruct (PyStr.rstrip p r) as [|e t] eqn:E; simpl.
  - destruct (p d) eqn:Ed; simpl; [discriminate|].
    intros [= <-]. exact Ed.
  - exact IH.
Qed.

Lemma rstrip_fixed s :
  (forall c, PyStr.last s = Some c -> p c = false) -> PyStr.rstrip p s = s.
Proof.
  induction s as [|d r IH]; simpl; [reflexivity|].
  intros H. destruct r as [|e t].
  - simpl. rewrite (H d eq_refl). reflexivity.
  - rewrite (IH H). reflexivity.
Qed.

Lemma rstrip_shorter s c :
  PyStr.last s = Some c -> p c = true ->
  String.length (PyStr.rstrip p s) < String.length s.
Proof.
  induction s as [|d r IH]; simpl; [discriminate|].
  intros Hl Hc. destruct r as [|e t].
  - injection Hl as ->. simpl. rewrite Hc. simpl. lia.
  - specialize (IH Hl Hc).
    destruct (PyStr.is_empty (PyStr.rstrip p (String e t)) && p d); simpl in *; lia.
Qed.

Lemma all_chars_take q n s :
  PyStr.all_chars q s = true -> PyStr.all_chars q (PyStr.take n s) = true.
Proof.
  revert s; induction n as [|n IH]; intros [|c r]; simpl; auto.
  intros [H1 H2]%andb_true_iff. now rewrite H1, IH.
Qed.

Lemma all_chars_lstrip q s :
  PyStr.all_chars q s = true -> PyStr.all_chars q (PyStr.lstrip p s) = true.
Proof.
  induction s as [|c r IH]; simpl; auto.
  intros H. destruct (p c); [|exact H].
  apply andb_true_iff in H as [_ H]. auto.
Qed.

Lemma all_chars_rstrip q s :
  PyStr.all_chars q s = true -> PyStr.all_chars q (PyStr.rstrip p s) = true.
Proof.
  induction s as [|c r IH]; simpl; auto.
  intros [H1 H2]%andb_true_iff.
  destruct (PyStr.is_empty (PyStr.rstrip p r) && p c); simpl; auto.
  now rewrite H1, IH.
Qed.

Lemma all_chars_mem q s c :
  PyStr.all_chars q s = true -> q c = false -> PyStr.mem c s = false.
Proof.
  induction s as [|d r IH]; simpl; auto.
  intros [H1 H2]%andb_true_iff Hc.
  destruct (Ascii.eqb_spec c d) as [->|_]; [congruence|].
  simpl. auto.
Qed.

Lemma last_take_all n s : String.length s <= n -> PyStr.last (PyStr.take n s) = PyStr.last s.
Proof. intros H. now rewrite take_all. Qed.

End StringFacts.

Lemma re_sub_illegal_legal s : PyStr.all_chars legal (re_sub_illegal s) = true.
Proof.
  unfold re_sub_illegal.
  induction s as [|c r IH]; simpl; auto.
  rewrite IH, andb_true_r.
  destruct (is_illegal c) eqn:E; [reflexivity|].
  unfold legal. now rewrite E.
Qed.

Lemma re_sub_illegal_id s :
  PyStr.all_chars legal s = true -> re_sub_illegal s = s.
Proof.
  unfold re_sub_illegal.
  induction s as [|c r IH]; simpl; auto.
  intros [H1 H2]%andb_true_iff.
  rewrite (IH H2).
  unfold legal in H1. apply negb_true_iff in H1. now rewrite H1.
Qed.

Lemma sanitize_unfold x : sanitize_filename x = PyStr.take 200 (before_take x).
Proof. reflexivity. Qed.

Lemma before_take_legal x : PyStr.all_chars legal (before_take x) = true.
Proof.
  unfold before_take.
  destruct (PyStr.is_empty _) eqn:E; [reflexivity|].
  apply all_chars_rstrip, all_chars_lstrip, re_sub_illegal_legal.
Qed.

Lemma before_take_head x :
  exists c r, before_take x = String c r /\ dot_or_space c = false.
Proof.
  unfold before_take, PyStr.strip.
  destruct (lstrip_head dot_or_space (re_sub_illegal x)) as [E|(c & r & E & Hc)];
    rewrite E.
  - simpl. now exists "u", "nnamed"%string.
  - rewrite (rstrip_cons _ _ _ Hc). simpl. eauto.
Qed.

Lemma before_take_last x c :
  PyStr.last (before_take x) = Some c -> dot_or_space c = false.
Proof.
  unfold before_take, PyStr.strip.
  destruct (PyStr.is_empty _) eqn:E.
  - simpl. now intros [= <-].
  - apply rstrip_last.
Qed.

Lemma before_take_length x : String.length x <= 200 -> String.length (before_take x) <= 200.
Proof.
  intros H. unfold before_take, PyStr.strip.
  destruct (PyStr.is_empty _); [simpl; lia|].
  etransitivity; [apply rstrip_length|].
  etransitivity; [apply lstrip_length|].
  assert (forall s, String.length (re_sub_illegal s) = String.length s) as ->; [|exact H].
  unfold re_sub_illegal. induction s; simpl; auto.
Qed.

Lemma sanitize_legal x : PyStr.all_chars legal (sanitize_filename x) = true.
Proof. rewrite sanitize_unfold. apply all_chars_take, before_take_legal. Qed.

Lemma sanitize_head x :
  exists c r, sanitize_filename x = String c r /\ dot_or_space c = false.
Proof.
  rewrite sanitize_unfold.
  destruct (before_take_head x) as (c & r & -> & Hc).
  simpl. eauto.
Qed.

Lemma sanitize_length x : String.length (sanitize_filename x) <= 200.
Proof. rewrite sanitize_unfold, take_length. lia. Qed.

(** A second pass only strips on the right. *)
Lemma sanitize_twice x :
  sanitize_filename (sanitize_filename x) =
  PyStr.rstrip dot_or_space (sanitize_filename x).
Proof.
  set (y := sanitize_filename x).
  destruct (sanitize_head x) as (c & r & Hy & Hc). fold y in Hy.
  unfold sanitize_filename at 1.
  rewrite (re_sub_illegal_id y) by apply sanitize_legal.
  unfold PyStr.strip. rewrite Hy, (lstrip_fixed _ _ _ Hc), (rstrip_cons _ _ _ Hc).
  simpl PyStr.is_empty. cbv iota.
  apply take_all.
  rewrite <- (rstrip_cons _ _ _ Hc), <- Hy.
  etransitivity; [apply rstrip_length|apply sanitize_length].
Qed.

(** ** [sanitize_filename] *)

(** Claim C2, as amended. For every string [x] the output of
    [sanitize_filename] contains none of the characters of the class, has at
    most 200 characters and is not empty. A second pass returns the same
    string exactly when the output does not end in a period or a space, and
    that is the case whenever [x] has at most 200 characters. *)
Theorem sanitize_filename_properties (x : string) :
  (forall c, is_illegal c = true -> PyStr.mem c (sanitize_filename x) = false) /\
  String.length (sanitize_filename x) <= 200 /\
  sanitize_filename x <> EmptyString /\
  (sanitize_filename (sanitize_filename x) = sanitize_filename x <->
   forall c, PyStr.last (sanitize_filename x) = Some c -> dot_or_space c = false) /\
  (String.length x <= 200 ->
   sanitize_filename (sanitize_filename x) = sanitize_filename x).
Proof.
  assert (Hiff : sanitize_filename (sanitize_filename x) = sanitize_filename x <->
    forall c, PyStr.last (sanitize_filename x) = Some c -> dot_or_space c = false).
  { rewrite sanitize_twice. split.
    - intros E c Hc. rewrite <- E in Hc. eapply rstrip_last, Hc.
    - apply rstrip_fixed. }
  repeat split.
  - intros c Hc. apply (all_chars_mem legal); [apply sanitize_legal|].
    unfold legal. now rewrite Hc.
  - apply sanitize_length.
  - destruct (sanitize_head x) as (c & r & -> & _). discriminate.
  - apply Hiff.
  - apply Hiff.
  - intros Hx. apply Hiff. intros c.
    rewrite sanitize_unfold, last_take_all by now apply before_take_length.
    apply before_take_last.
Qed.

Lemma sanitize_filename_properties_witness :
  sanitize_filename (sanitize_filename " photo?.of:cat.jpg. ") =
  sanitize_filename " photo?.of:cat.jpg. ".
Proof.
  apply (sanitize_filename_properties " photo?.of:cat.jpg. ").
  vm_compute. lia.
Defined.

(** Claim C2 as stated fails: the slice can cut a name just after a period,
    which a second pass then strips. *)
Lemma sanitize_filename_not_idempotent :
  sanitize_filename (sanitize_filename (PyStr.repeat "a" 199 ++ ".b")) <>
  sanitize_filename (PyStr.repeat "a" 199 ++ ".b").
Proof.
  intros H. apply (f_equal String.length) in H.
  vm_compute in H. discriminate.
Qed.

(** ** [extract_image_urls] *)

Lemma startswith_app prefix s :
  PyStr.startswith prefix s = true <-> exists r, s = (prefix ++ r)%string.
Proof.
  revert s; induction prefix as [|a q IH]; intros s; simpl.
  - split; eauto.
  - destruct s as [|b r]; [split; [discriminate|intros [? [=]]]|].
    rewrite andb_true_iff, IH. split.
    + intros [->%Ascii.eqb_eq [t ->]]. eauto.
    + intros [t [= -> ->]]. rewrite Ascii.eqb_refl. eauto.
Qed.

Lemma is_http_url_prefixes v :
  is_http_url v = true ->
  PyStr.startswith "//" v = false /\ PyStr.startswith "/" v = false /\
  PyStr.startswith "http" v = true.
Proof.
  unfold is_http_url.
  intros [H|H]%orb_true_iff; apply startswith_app in H as [r ->]; now vm_compute.
Qed.

Lemma obind_Ret {A B} (o : outcome A) (k : A -> outcome B) (b : B) :
  obind o k = Ret b -> exists a, o = Ret a /\ k a = Ret b.
Proof. destruct o as [a|e]; simpl; [eauto|discriminate]. Qed.

Section ExtractionFacts.

Variable w : World.
Variable base_url : string.

Lemma extract_loop_app l acc res :
  extract_loop w base_url l acc = Ret res ->
  exists added, res = (acc ++ added)%list /\
    forall r, In r added ->
      exists img_tag n, In img_tag l /\ record_of w base_url img_tag n = Ret (Some r).
Proof.
  revert acc; induction l as [|t l IH]; intros acc; simpl.
  - intros [= <-]. exists []. split; [now rewrite app_nil_r|intros ? []].
  - intros (acc' & Hstep & Hloop)%obind_Ret.
    apply obind_Ret in Hstep as (o & Hrec & Ho).
    destruct (IH _ Hloop) as (added & -> & Hin).
    destruct o as [r0|]; injection Ho as <-.
    + exists (r0 :: added). split; [now rewrite <- app_assoc|].
      intros r [<-|Hr]; [eauto|].
      destruct (Hin r Hr) as (t' & n & ? & ?). eauto.
    + exists added. split; [reflexivity|].
      intros r Hr. destruct (Hin r Hr) as (t' & n & ? & ?). eauto.
Qed.

Lemma extract_image_urls_In page_soup l r :
  extract_image_urls w page_soup base_url = Ret l ->
  In r l ->
  exists img_tag n, In img_tag (find_all_img page_soup) /\
    record_of w base_url img_tag n = Ret (Some r).
Proof.
  unfold extract_image_urls. intros (added & -> & Hin)%extract_loop_app.
  simpl. apply Hin.
Qed.

Lemma record_of_Some img_tag n r :
  record_of w base_url img_tag n = Ret (Some r) ->
  exists v, source_of img_tag = Some v /\ is_skipped v = false /\
    absolute_url w base_url v = Ret (url r).
Proof.
  unfold record_of. destruct (source_of img_tag) as [v|]; [|discriminate].
  destruct (is_skipped v) eqn:E; [discriminate|].
  intros (u & Hu & H)%obind_Ret.
  apply obind_Ret in H as (t & _ & H).
  apply obind_Ret in H as (f & _ & H).
  injection H as <-. eauto.
Qed.

Lemma absolute_url_cases v :
  (PyStr.startswith "//" v = true ->
   absolute_url w base_url v = Ret ("https:" ++ v)%string) /\
  (is_http_url v = true -> absolute_url w base_url v = Ret v) /\
  (PyStr.startswith "//" v = false -> PyStr.startswith "http" v = false ->
   absolute_url w base_url v = urljoin w base_url v).
Proof.
  unfold absolute_url. split; [|split].
  - intros H. now rewrite H.
  - intros (H1 & H2 & H3)%is_http_url_prefixes. now rewrite H1, H2, H3.
  - intros H1 H2. rewrite H1, H2. now destruct (PyStr.startswith "/" v).
Qed.

Lemma extract_loop_skip l1 l2 img_tag acc :
  (forall n, record_of w base_url img_tag n = Ret None) ->
  extract_loop w base_url (l1 ++ img_tag :: l2) acc =
  extract_loop w base_url (l1 ++ l2) acc.
Proof.
  intros Hnone. revert acc; induction l1 as [|t l1 IH]; intros acc; simpl.
  - unfold extract_step. now rewrite Hnone.
  - destruct (extract_step w base_url acc t); simpl; auto.
Qed.

End ExtractionFacts.




(** The prefix test also lets a relative name through. *)
Lemma extract_keeps_relative_http_prefix :
  extract_image_urls (py_world offline sound_disk)
    {| find_all_img := [img [("src", "httpx.jpg")]%string] |}
    "https://www.sucai999.com/pic/cate/265_324-1.html" =
  Ret [ {| url := "httpx.jpg"; title := "httpx.jpg"; filename := "httpx.jpg" |} ].
Proof. vm_compute. reflexivity. Qed.

(** Claim C4, as amended. The skip test reads the selected source value
    before it is made absolute: when that value, in lower case, contains one
    of the four words, the element yields no record, and the result is the
    one of the page without the element. *)
Theorem skipped_source_yields_no_record (w : World) (base_url : string)
  (img_tag : Tag) (v : string) :
  source_of img_tag = Some v ->
  is_skipped v = true ->
  (forall n, record_of w base_url img_tag n = Ret None) /\
  (forall before after,
     extract_image_urls w {| find_all_img := before ++ img_tag :: after |} base_url =
     extract_image_urls w {| find_all_img := before ++ after |} base_url).
Proof.
  intros Hv Hskip.
  assert (Hnone : forall n, record_of w base_url img_tag n = Ret None).
  { intros n. unfold record_of. now rewrite Hv, Hskip. }
  split; [exact Hnone|].
  intros before after. unfold extract_image_urls. simpl.
  now apply extract_loop_skip.
Qed.

Lemma skipped_source_yields_no_record_witness :
  (forall n, record_of (py_world offline sound_disk)
               "https://www.sucai999.com/pic/cate/265_324-1.html"
               (img [("src", "/images/LOGO.png")]%string) n = Ret None) /\
  (forall before after,
     extract_image_urls (py_world offline sound_disk)
       {| find_all_img := before ++ img [("src", "/images/LOGO.png")]%string :: after |}
       "https://www.sucai999.com/pic/cate/265_324-1.html" =
     extract_image_urls (py_world offline sound_disk)
       {| find_all_img := before ++ after |}
       "https://www.sucai999.com/pic/cate/265_324-1.html").
Proof.
  apply (skipped_source_yields_no_record (py_world offline sound_disk)
           "https://www.sucai999.com/pic/cate/265_324-1.html"
           (img [("src", "/images/LOGO.png")]%string) "/images/LOGO.png");
    reflexivity.
Defined.

(** Claim C4 as stated fails: the word can come from the base URL. The source
    [/a.jpg] passes the test, and its absolute form contains [icon]. *)
Lemma skip_test_misses_resolved_url :
  extract_image_urls (py_world offline sound_disk)
    {| find_all_img := [img [("src", "/a.jpg")]%string] |}
    "https://icons.example.com/gallery/1.html" =
  Ret [ {| url := "https://icons.example.com/a.jpg"; title := "a.jpg";
           filename := "a.jpg" |} ] /\
  absolute_url (py_world offline sound_disk)
    "https://icons.example.com/gallery/1.html" "/a.jpg" =
  Ret "https://icons.example.com/a.jpg"%string /\
  PyStr.contains "icon" (PyStr.lower "https://icons.example.com/a.jpg") = true.
Proof. repeat split; vm_compute; reflexivity. Qed.

(** Claim C6. The page with the single element
    [<img data-original="//cdn.example.com/a.jpg" alt="Cat">] yields exactly
    the record with URL [https://cdn.example.com/a.jpg], title [Cat] and
    file name [a.jpg], whatever the base URL and the enclosing elements; and
    a non-empty [data-original] is the selected source whatever the other
    attributes are. *)
Theorem extract_lazy_load_scenario :
  (forall net disk base_url pa pd,
     extract_image_urls (py_world net disk)
       {| find_all_img :=
            [ {| attrs := list_to_map
                            [("data-original", "//cdn.example.com/a.jpg");
                             ("alt", "Cat")]%string;
                 parent_a_text := pa; parent_div_text := pd |} ] |}
       base_url =
     Ret [ {| url := "https://cdn.example.com/a.jpg"; title := "Cat";
              filename := "a.jpg" |} ]) /\
  (forall img_tag v,
     tag_get img_tag "data-original" = Some v -> v <> EmptyString ->
     source_of img_tag = Some v).
Proof.
  split.
  - intros. vm_compute. reflexivity.
  - intros img_tag v Hv Hne. unfold source_of. rewrite Hv.
    destruct v; [contradiction|reflexivity].
Qed.

Lemma extract_lazy_load_scenario_witness :
  source_of (img [("src", "/b.jpg"); ("data-src", "/c.jpg");
                  ("data-original", "//cdn.example.com/a.jpg")]%string) =
  Some "//cdn.example.com/a.jpg"%string.
Proof.
  apply (proj2 extract_lazy_load_scenario); [reflexivity|discriminate].
Defined.

(** ** The monad *)

Lemma extend_nil st : extend st [] = st.
Proof. destruct st. unfold extend. simpl. now rewrite app_nil_r. Qed.

Lemma extend_extend st t1 t2 : extend (extend st t1) t2 = extend st (t1 ++ t2).
Proof. unfold extend. simpl. now rewrite app_assoc. Qed.

Lemma emit_run e st : emit e st = (Ret tt, extend st [e]).
Proof. reflexivity. Qed.

Lemma get_urls_app t1 t2 : get_urls (t1 ++ t2) = (get_urls t1 ++ get_urls t2)%list.
Proof.
  induction t1 as [|e t1 IH]; simpl; [reflexivity|].
  destruct e; simpl; now rewrite IH.
Qed.

Lemma sleeps_app t1 t2 : sleeps (t1 ++ t2) = (sleeps t1 ++ sleeps t2)%list.
Proof.
  induction t1 as [|e t1 IH]; simpl; [reflexivity|].
  destruct e; simpl; now rewrite IH.
Qed.

(** ** The merge *)

Lemma merged_nil c : merged c [] = c.
Proof.
  destruct c as [a s]. unfold merged. simpl. rewrite app_nil_r. f_equal.
  set_solver.
Qed.

Lemma accept_new_app seen l1 l2 :
  accept_new seen (l1 ++ l2) =
  (accept_new seen l1 ++ accept_new (seen ∪ list_to_set (List.map url l1)) l2)%list.
Proof.
  revert seen; induction l1 as [|r l1 IH]; intros seen; simpl.
  - f_equal. set_solver.
  - destruct (decide (url r ∈ seen)) as [Hin|Hout].
    + rewrite IH. do 2 f_equal. set_solver.
    + simpl. rewrite IH. do 3 f_equal. set_solver.
Qed.

Lemma merged_merged c l1 l2 : merged (merged c l1) l2 = merged c (l1 ++ l2).
Proof.
  unfold merged. simpl. rewrite accept_new_app, <- app_assoc. f_equal.
  rewrite map_app. set_solver.
Qed.

Lemma merged_inv c l : crawl_inv c -> crawl_inv (merged c l).
Proof.
  revert c; induction l as [|r l IH]; intros c Hc.
  - now rewrite merged_nil.
  - change (r :: l) with ([r] ++ l)%list. rewrite <- merged_merged.
    apply IH. destruct c as [a s]. destruct Hc as [Hnd Hs]. simpl in *.
    unfold merged, crawl_inv. simpl.
    destruct (decide (url r ∈ s)) as [Hin|Hout].
    + rewrite app_nil_r. split; [exact Hnd|].
      intros u. rewrite <- Hs. set_solver.
    + rewrite map_app. simpl. split.
      * apply NoDup_app. split; [exact Hnd|]. split.
        -- intros u Hu Hu'. apply list_elem_of_In in Hu'.
           destruct Hu' as [E|[]]. subst u. apply Hout, Hs.
           now apply list_elem_of_In.
        -- apply NoDup_singleton.
      * intros u. rewrite in_app_iff, <- Hs. simpl. set_solver.
Qed.

Lemma merged_urls c l u :
  crawl_inv c ->
  In u (List.map url (all_image_data (merged c l))) <->
  In u (List.map url (all_image_data c)) \/ In u (List.map url l).
Proof.
  intros Hc. destruct (merged_inv c l Hc) as [_ Hs].
  rewrite <- Hs. simpl. rewrite elem_of_union, elem_of_list_to_set.
  rewrite (proj2 Hc u), list_elem_of_In. reflexivity.
Qed.

Lemma crawl_inv_empty : crawl_inv {| all_image_data := []; seen_urls := ∅ |}.
Proof. split; simpl; [constructor|]. intros u. set_solver. Qed.

Lemma bind_run {A B} (m : M A) (k : A -> M B) st :
  bind m k st =
  match m st with
  | (Ret a, st') => k a st'
  | (Raise e, st') => (Raise e, st')
  end.
Proof. reflexivity. Qed.

Lemma for_each_cons {A S} (x : A) (l : list A) (body : S -> A -> M S) s st :
  for_each (x :: l) body s st =
  match body s x st with
  | (Ret s', st') => for_each l body s' st'
  | (Raise e, st') => (Raise e, st')
  end.
Proof. reflexivity. Qed.

Lemma merge_step_run c r st :
  exists t,
    merge_step c r st = (Ret (merged c [r]), extend st t) /\
    get_urls t = [] /\ sleeps t = [].
Proof.
  unfold merge_step, merged. simpl.
  destruct (decide (url r ∈ seen_urls c)).
  - exists []. rewrite extend_nil, app_nil_r. unfold ret.
    split; [|auto]. do 2 f_equal. destruct c as [a s]. simpl in *.
    f_equal. set_solver.
  - exists [EvPrint (LogImage (PyStr.take 50 (title r)))].
    split; [|auto]. unfold print. rewrite bind_run, emit_run. unfold ret.
    do 3 f_equal. set_solver.
Qed.

Lemma merge_loop l c st :
  exists t,
    for_each l merge_step c st = (Ret (merged c l), extend st t) /\
    get_urls t = [] /\ sleeps t = [].
Proof.
  revert c st; induction l as [|r l IH]; intros c st.
  - exists []. simpl. now rewrite merged_nil, extend_nil.
  - change (r :: l) with ([r] ++ l)%list at 2. rewrite <- merged_merged.
    rewrite for_each_cons.
    destruct (merge_step_run c r st) as (t1 & -> & Hg1 & Hs1).
    destruct (IH (merged c [r]) (extend st t1)) as (t2 & -> & Hg2 & Hs2).
    exists (t1 ++ t2)%list. rewrite extend_extend, get_urls_app, sleeps_app.
    rewrite Hg1, Hg2, Hs1, Hs2. auto.
Qed.

(** ** [fetch_page] and the loop over the pages *)

Section CrawlFacts.

Variable w : World.

Lemma get_run u timeout stream st :
  get w u timeout stream st =
  (requests_get w (trace st) u, extend st [EvGet u timeout stream]).
Proof. reflexivity. Qed.

Lemma fetch_page_run u st :
  exists t,
    fetch_page w u st = (Ret (fetched w u st), extend st (EvGet u 15 false :: t)) /\
    get_urls t = [] /\ sleeps t = [].
Proof.
  unfold fetch_page, try_except, fetched. rewrite bind_run, get_run.
  destruct (requests_get w (trace st) u) as [r|e].
  - rewrite bind_run. destruct (status_error r) as [e|]; simpl.
    + exists [EvPrint (LogFetchFailed u e)]. split; [|auto].
      unfold print. rewrite bind_run, emit_run, extend_extend.
      destruct (parse_error r); reflexivity.
    + rewrite bind_run. destruct (parse_error r) as [e|]; simpl.
      * exists [EvPrint (LogFetchFailed u e)]. split; [|auto].
        unfold print. rewrite bind_run, emit_run, extend_extend. reflexivity.
      * exists []. auto.
  - exists [EvPrint (LogFetchFailed u e)]. split; [|auto].
    unfold print. rewrite bind_run, emit_run, extend_extend. reflexivity.
Qed.

Lemma page_step_run max_pages c page_num st :
  exists t,
    page_step w max_pages c page_num st =
      (match fst (page_outcome w max_pages page_num st) with
       | Ret l => Ret (merged c l)
       | Raise e => Raise e
       end, extend st t) /\
    get_urls t = [BASE_URL_format page_num] /\
    sleeps t = snd (page_outcome w max_pages page_num st).
Proof.
  unfold page_step, page_outcome, print.
  rewrite bind_run, emit_run, bind_run.
  set (st1 := extend st _).
  destruct (fetch_page_run (BASE_URL_format page_num) st1) as (t1 & -> & Hg1 & Hs1).
  destruct (fetched w (BASE_URL_format page_num) st1) as [page_soup|]; simpl fst; simpl snd.
  - rewrite bind_run. unfold lift.
    destruct (extract_image_urls w page_soup (BASE_URL_format page_num)) as [l|e];
      simpl fst; simpl snd.
    + rewrite bind_run, emit_run, bind_run.
      set (st2 := extend _ _).
      destruct (merge_loop l c st2) as (t2 & -> & Hg2 & Hs2).
      unfold sleep. rewrite bind_run, emit_run. unfold ret, st2, st1.
      rewrite !extend_extend. eexists. split; [reflexivity|].
      simpl. rewrite !get_urls_app, !sleeps_app, Hg1, Hs1. simpl.
      rewrite !get_urls_app, !sleeps_app, Hg2, Hs2. simpl. auto.
    + unfold st1. rewrite !extend_extend. eexists. split; [reflexivity|].
      simpl. rewrite Hg1, Hs1. auto.
  - rewrite bind_run, emit_run. unfold ret, st1.
    rewrite !extend_extend, merged_nil. eexists. split; [reflexivity|].
    simpl. rewrite !get_urls_app, !sleeps_app, Hg1, Hs1. simpl. auto.
Qed.

Lemma page_outcome_result max_pages page_num st l :
  fst (page_outcome w max_pages page_num st) = Ret l -> page_result w page_num l.
Proof.
  unfold page_outcome, page_result.
  destruct (fetched _ _ _) as [page_soup|]; simpl.
  - destruct (extract_image_urls w page_soup _) as [l'|e] eqn:E; simpl;
      [|discriminate].
    intros [= <-]. eauto.
  - intros [= <-]. now left.
Qed.

Lemma page_outcome_sleeps max_pages page_num st :
  List.length (snd (page_outcome w max_pages page_num st)) <= 1.
Proof.
  unfold page_outcome. destruct (fetched _ _ _); simpl; [|lia].
  destruct (extract_image_urls _ _ _); simpl; lia.
Qed.

Lemma page_outcome_offline max_pages page_num st :
  (forall h u, exists e, requests_get w h u = Raise e) ->
  page_outcome w max_pages page_num st = (Ret [], []).
Proof.
  intros Hnet. unfold page_outcome, fetched.
  destruct (Hnet (trace (extend st [EvPrint (LogPageVisit page_num max_pages
                                               (BASE_URL_format page_num))]))
              (BASE_URL_format page_num)) as [e ->].
  reflexivity.
Qed.

Lemma crawl_loop max_pages pages c st :
  exists r t,
    for_each pages (page_step w max_pages) c st = (r, extend st t) /\
    (forall c', r = Ret c' ->
       exists ls,
         c' = merged c (concat ls) /\
         Forall2 (page_result w) pages ls /\
         get_urls t = List.map BASE_URL_format pages /\
         List.length (sleeps t) <= List.length pages) /\
    ((forall h u, exists e, requests_get w h u = Raise e) ->
     (exists c', r = Ret c') /\ sleeps t = []).
Proof.
  revert c st; induction pages as [|n pages IH]; intros c st.
  - exists (Ret c), []. simpl. rewrite extend_nil. split; [reflexivity|]. split.
    + intros c' [= <-]. exists []. simpl. rewrite merged_nil. repeat split; auto.
    + intros _. split; [eauto|reflexivity].
  - rewrite for_each_cons.
    destruct (page_step_run max_pages c n st) as (t1 & -> & Hg1 & Hs1).
    destruct (fst (page_outcome w max_pages n st)) as [l|e] eqn:El.
    + destruct (IH (merged c l) (extend st t1)) as (r & t2 & -> & Hret & Hoff).
      exists r, (t1 ++ t2)%list. rewrite extend_extend. split; [reflexivity|]. split.
      * intros c' Hc'. destruct (Hret c' Hc') as (ls & -> & Hres & Hg2 & Hs2).
        exists (l :: ls). simpl. rewrite merged_merged, get_urls_app, sleeps_app.
        rewrite Hg1, Hg2, length_app, Hs1. repeat split; auto.
        -- constructor; [|exact Hres]. eapply page_outcome_result, El.
        -- pose proof (page_outcome_sleeps max_pages n st). lia.
      * intros Hnet. destruct (Hoff Hnet) as [Hc' Hs2]. split; [exact Hc'|].
        rewrite sleeps_app, Hs2, Hs1, (page_outcome_offline _ _ _ Hnet).
        reflexivity.
    + exists (Raise e), t1. split; [reflexivity|]. split; [discriminate|].
      intros Hnet. rewrite (page_outcome_offline _ _ _ Hnet) in El. discriminate.
Qed.

Lemma crawl_images_run max_pages st :
  exists r t,
    crawl_images w max_pages st = (r, extend st t) /\
    (forall res, r = Ret res ->
       exists ls,
         res = accept_new ∅ (concat ls) /\
         Forall2 (page_result w) (range1 (max_pages + 1)) ls /\
         get_urls t = List.map BASE_URL_format (range1 (max_pages + 1)) /\
         List.length (sleeps t) <= List.length (range1 (max_pages + 1))) /\
    ((forall h u, exists e, requests_get w h u = Raise e) ->
     (exists res, r = Ret res) /\ sleeps t = []).
Proof.
  unfold crawl_images, print. rewrite bind_run, emit_run, bind_run.
  destruct (crawl_loop max_pages (range1 (max_pages + 1))
              {| all_image_data := []; seen_urls := ∅ |}
              (extend st [EvPrint (LogCrawlStart max_pages)]))
    as (r & t & -> & Hret & Hoff).
  destruct r as [c'|e].
  - rewrite bind_run, emit_run. unfold ret. rewrite !extend_extend.
    eexists _, _. split; [reflexivity|]. split.
    + intros res [= <-]. destruct (Hret c' eq_refl) as (ls & -> & Hres & Hg & Hs).
      exists ls. simpl. rewrite get_urls_app, sleeps_app. simpl.
      rewrite !app_nil_r. auto.
    + intros Hnet. destruct (Hoff Hnet) as [_ Hs]. split; [eauto|].
      simpl. rewrite sleeps_app, Hs. reflexivity.
  - rewrite extend_extend. eexists _, _. split; [reflexivity|].
    split; [discriminate|].
    intros Hnet. destruct (Hoff Hnet) as [[c' [=]] _].
Qed.

End CrawlFacts.

Lemma accept_new_NoDup l : NoDup (List.map url (accept_new ∅ l)).
Proof.
  apply (merged_inv {| all_image_data := []; seen_urls := ∅ |} l crawl_inv_empty).
Qed.

Lemma accept_new_urls l u :
  In u (List.map url (accept_new ∅ l)) <-> In u (List.map url l).
Proof.
  rewrite (merged_urls {| all_image_data := []; seen_urls := ∅ |} l u crawl_inv_empty).
  simpl. tauto.
Qed.

Lemma accept_new_sublist seen l : sublist (accept_new seen l) l.
Proof.
  revert seen; induction l as [|a l IH]; intros seen; simpl.
  - constructor.
  - destruct (decide (url a ∈ seen)).
    + apply sublist_cons, IH.
    + apply sublist_skip, IH.
Qed.

(** A record that is kept is the first one of the list with its URL. *)
Lemma accept_new_first seen l r :
  In r (accept_new seen l) ->
  (url r ∉ seen) /\
  exists l1 l2, l = (l1 ++ r :: l2)%list /\ ~ In (url r) (List.map url l1).
Proof.
  revert seen; induction l as [|a l IH]; intros seen; simpl; [intros []|].
  destruct (decide (url a ∈ seen)) as [Ha|Ha].
  - intros Hr. destruct (IH _ Hr) as (Hseen & l1 & l2 & -> & Hl1).
    split; [exact Hseen|]. exists (a :: l1), l2. split; [reflexivity|].
    simpl. intros [E|H]; [|contradiction]. rewrite E in Ha. contradiction.
  - intros [<-|Hr].
    + split; [exact Ha|]. exists [], l. split; [reflexivity|]. intros [].
    + destruct (IH _ Hr) as (Hseen & l1 & l2 & -> & Hl1).
      split; [set_solver|]. exists (a :: l1), l2. split; [reflexivity|].
      simpl. intros [E|H]; [|contradiction]. apply Hseen. set_solver.
Qed.

Lemma range1_length n : List.length (range1 (n + 1)) = Z.to_nat n.
Proof. unfold range1. rewrite length_map, length_seq. f_equal. lia. Qed.

Lemma range1_nth n i :
  (i < Z.to_nat n)%nat -> nth_error (range1 (n + 1)) i = Some (Z.of_nat i + 1)%Z.
Proof.
  intros H. unfold range1. rewrite nth_error_map.
  replace (n + 1 - 1)%Z with n by lia.
  rewrite nth_error_seq.
  destruct (Nat.ltb_spec i (Z.to_nat n)); [|lia].
  simpl. f_equal. lia.
Qed.

(** ** [crawl_images] *)

(** Claim C1. The loop over the records of a page follows the rule of the
    merge: a record is appended only if its URL is not in the set of seen
    URLs, and its URL enters the set when it is appended. What a run of
    [crawl_images] returns is the outcome of that rule on the records of the
    pages in page order, starting from the empty set: no two records have
    the same URL, every URL found on a page is there, the records are in the
    order of the pages, and each one is the first with its URL. *)
Theorem crawl_images_dedup (w : World) (max_pages : Z) (st : State)
  (res : list ImageRecord) :
  fst (crawl_images w max_pages st) = Ret res ->
  (forall l c st0, exists st1,
     for_each l merge_step c st0 =
     (Ret {| all_image_data := all_image_data c ++ accept_new (seen_urls c) l;
             seen_urls := seen_urls c ∪ list_to_set (List.map url l) |}, st1)) /\
  NoDup (List.map url res) /\
  exists pages,
    Forall2 (page_result w) (range1 (max_pages + 1)) pages /\
    res = accept_new ∅ (concat pages) /\
    (forall u, In u (List.map url res) <-> In u (List.map url (concat pages))) /\
    sublist res (concat pages) /\
    (forall r, In r res ->
       exists l1 l2, concat pages = (l1 ++ r :: l2)%list /\
                     ~ In (url r) (List.map url l1)).
Proof.
  intros Hres. split.
  { intros l c st0. destruct (merge_loop l c st0) as (t & E & _). eauto. }
  destruct (crawl_images_run w max_pages st) as (r & t & E & Hret & _).
  rewrite E in Hres. simpl in Hres.
  destruct (Hret res Hres) as (ls & -> & Hpages & _).
  split; [apply accept_new_NoDup|].
  exists ls. split; [exact Hpages|]. split; [reflexivity|].
  split; [apply accept_new_urls|]. split; [apply accept_new_sublist|].
  intros r0 Hr0. now apply accept_new_first in Hr0 as [_ H].
Qed.

Lemma crawl_images_dedup_witness :
  NoDup (List.map url
           [ {| url := "https://cdn.example.com/x.jpg"; title := "x.jpg";
                filename := "x.jpg" |} ]).
Proof.
  refine (proj1 (proj2 (crawl_images_dedup
                          (py_world (serving one_image_page) sound_disk) 2 initial
                          [ {| url := "https://cdn.example.com/x.jpg";
                               title := "x.jpg"; filename := "x.jpg" |} ] _))).
  vm_compute. reflexivity.
Defined.

(** A run that returns has requested every page from 1 to [max_pages], in
    that order, whatever the network answered. *)
Lemma crawl_images_fetches_when_returns (w : World) (max_pages : Z) (st : State)
  (res : list ImageRecord) :
  fst (crawl_images w max_pages st) = Ret res ->
  exists t,
    snd (crawl_images w max_pages st) = extend st t /\
    List.length (get_urls t) = Z.to_nat max_pages /\
    (forall i, (i < Z.to_nat max_pages)%nat ->
       nth_error (get_urls t) i = Some (BASE_URL_format (Z.of_nat i + 1))).
Proof.
  intros Hres.
  destruct (crawl_images_run w max_pages st) as (r & t & E & Hret & _).
  rewrite E in *. simpl in Hres.
  destruct (Hret res Hres) as (ls & _ & _ & Hg & _).
  exists t. rewrite Hg. split; [reflexivity|]. split.
  - now rewrite length_map, range1_length.
  - intros i Hi. now rewrite nth_error_map, range1_nth.
Qed.

(** Claim C5 fails on the code: [extract_image_urls] is called outside any
    [try], and [urlparse] raises [ValueError] on a host with a bracket
    alone. With such an image on the first of two pages, [crawl_images]
    requests the first page only and raises. *)
Theorem crawl_images_aborts_on_bad_url :
  crawl_images (py_world (serving bad_bracket_page) sound_disk) 2 initial =
  (Raise ValueError,
   extend initial
     [EvPrint (LogCrawlStart 2);
      EvPrint (LogPageVisit 1 2 "https://www.sucai999.com/pic/cate/265_324-1.html");
      EvGet "https://www.sucai999.com/pic/cate/265_324-1.html" 15 false]).
Proof. vm_compute. reflexivity. Qed.

(** Claim C7 fails on the code: a page whose fetch fails is left by
    [continue], before the pause. On a network where every request fails,
    [crawl_images] requests every page, returns, and never pauses. *)
Theorem crawl_images_no_pause_after_failure (disk : list event -> event -> bool)
  (max_pages : Z) (st : State) :
  exists res t,
    crawl_images (py_world offline disk) max_pages st = (Ret res, extend st t) /\
    get_urls t = List.map BASE_URL_format (range1 (max_pages + 1)) /\
    sleeps t = [].
Proof.
  destruct (crawl_images_run (py_world offline disk) max_pages st)
    as (r & t & E & Hret & Hoff).
  destruct Hoff as [[res ->] Hs].
  { intros h u. now exists RequestException. }
  destruct (Hret res eq_refl) as (ls & _ & _ & Hg & _).
  exists res, t. auto.
Qed.

(** The run of claim C7's failing input: one page, whose fetch fails. *)
Example crawl_one_failed_page :
  crawl_images (py_world offline sound_disk) 1 initial =
  (Ret [],
   extend initial
     [EvPrint (LogCrawlStart 1);
      EvPrint (LogPageVisit 1 1 "https://www.sucai999.com/pic/cate/265_324-1.html");
      EvGet "https://www.sucai999.com/pic/cate/265_324-1.html" 15 false;
      EvPrint (LogFetchFailed "https://www.sucai999.com/pic/cate/265_324-1.html"
                 RequestException);
      EvPrint (LogPageSkipped 1);
      EvPrint (LogTotal 0)]).
Proof. reflexivity. Qed.

(** A run that returns took at most one pause for each page. *)
Lemma crawl_images_pauses_bound (w : World) (max_pages : Z) (st : State)
  (res : list ImageRecord) :
  fst (crawl_images w max_pages st) = Ret res ->
  exists t,
    snd (crawl_images w max_pages st) = extend st t /\
    List.length (sleeps t) <= Z.to_nat max_pages.
Proof.
  intros Hres.
  destruct (crawl_images_run w max_pages st) as (r & t & E & Hret & _).
  rewrite E in *. simpl in Hres.
  destruct (Hret res Hres) as (ls & _ & _ & _ & Hs).
  exists t. split; [reflexivity|]. now rewrite range1_length in Hs.
Qed.

(** Claim C9. For [max_pages <= 0] the range is empty: [crawl_images] prints
    its two messages, requests nothing and returns the empty list. *)
Theorem crawl_images_nonpositive (w : World) (max_pages : Z) (st : State) :
  (max_pages <= 0)%Z ->
  crawl_images w max_pages st =
    (Ret [], extend st [EvPrint (LogCrawlStart max_pages); EvPrint (LogTotal 0)]) /\
  get_urls [EvPrint (LogCrawlStart max_pages); EvPrint (LogTotal 0)] = [].
Proof.
  intros H. split; [|reflexivity].
  unfold crawl_images, range1.
  replace (Z.to_nat (max_pages + 1 - 1)) with 0 by lia.
  simpl. unfold print. rewrite bind_run, emit_run, bind_run. unfold ret.
  rewrite bind_run, emit_run, extend_extend. reflexivity.
Qed.

Lemma crawl_images_nonpositive_witness :
  crawl_images (py_world offline sound_disk) (-2) initial =
    (Ret [], extend initial [EvPrint (LogCrawlStart (-2)); EvPrint (LogTotal 0)]) /\
  get_urls [EvPrint (LogCrawlStart (-2)); EvPrint (LogTotal 0)] = [].
Proof.
  apply (crawl_images_nonpositive (py_world offline sound_disk) (-2) initial).
  lia.
Defined.

(** ** Traces only grow *)

Create HintDb grows.

Lemma grows_ret {A} (a : A) : grows (ret a).
Proof. intros st. exists []. simpl. now rewrite app_nil_r. Qed.

Lemma grows_raise {A} (e : exn) : grows (@raise A e).
Proof. intros st. exists []. simpl. now rewrite app_nil_r. Qed.

Lemma grows_emit e : grows (emit e).
Proof. intros st. now exists [e]. Qed.

Lemma grows_set_file path data : grows (set_file path data).
Proof. intros st. exists []. simpl. now rewrite app_nil_r. Qed.

Lemma grows_append_file path data : grows (append_file path data).
Proof. intros st. exists []. simpl. now rewrite app_nil_r. Qed.

Lemma grows_of_option o : grows (of_option o).
Proof. destruct o; [apply grows_raise|apply grows_ret]. Qed.

Lemma grows_bind {A B} (m : M A) (k : A -> M B) :
  grows m -> (forall a, grows (k a)) -> grows (bind m k).
Proof.
  intros Hm Hk st. rewrite bind_run.
  destruct (Hm st) as [t1 H1]. destruct (m st) as [[a|e] st1]; simpl in H1.
  - destruct (Hk a st1) as [t2 H2]. exists (t1 ++ t2)%list.
    now rewrite H2, H1, app_assoc.
  - now exists t1.
Qed.

Lemma grows_try_except {A} (m : M A) (handler : exn -> M A) :
  grows m -> (forall e, grows (handler e)) -> grows (try_except m handler).
Proof.
  intros Hm Hh st. unfold try_except.
  destruct (Hm st) as [t1 H1]. destruct (m st) as [[a|e] st1]; simpl in H1.
  - now exists t1.
  - destruct (Hh e st1) as [t2 H2]. exists (t1 ++ t2)%list.
    now rewrite H2, H1, app_assoc.
Qed.

Lemma grows_try_finally {A} (m : M A) (cleanup : M unit) :
  grows m -> grows cleanup -> grows (try_finally m cleanup).
Proof.
  intros Hm Hc st. unfold try_finally.
  destruct (Hm st) as [t1 H1]. destruct (m st) as [r st1]; simpl in H1.
  destruct (Hc st1) as [t2 H2]. exists (t1 ++ t2)%list.
  destruct (cleanup st1) as [[[]|e] st2]; simpl in *; now rewrite H2, H1, app_assoc.
Qed.

Lemma grows_for_each {A S} (l : list A) (body : S -> A -> M S) s :
  (forall s x, grows (body s x)) -> grows (for_each l body s).
Proof.
  intros Hb. revert s; induction l as [|x l IH]; intros s; simpl.
  - apply grows_ret.
  - apply grows_bind; auto.
Qed.

Lemma grows_if {A} (b : bool) (m1 m2 : M A) :
  grows m1 -> grows m2 -> grows (if b then m1 else m2).
Proof. now destruct b. Qed.

#[local] Hint Resolve grows_ret grows_raise grows_emit grows_set_file
  grows_append_file grows_of_option grows_bind grows_try_except
  grows_try_finally grows_for_each grows_if : grows.

Section DownloadFacts.

Variable w : World.

Lemma os_call_run e st :
  os_call w e st =
  (if os_error w (trace st) e then Raise OSError else Ret tt, extend st [e]).
Proof. unfold os_call. now destruct (os_error w (trace st) e). Qed.

Lemma grows_get u timeout stream : grows (get w u timeout stream).
Proof. intros st. rewrite get_run. now exists [EvGet u timeout stream]. Qed.

Lemma grows_os_call e : grows (os_call w e).
Proof. intros st. rewrite os_call_run. now exists [e]. Qed.

Hint Resolve grows_get grows_os_call : grows.

Lemma grows_write path data : grows (write w path data).
Proof. unfold write. auto with grows. Qed.

Hint Resolve grows_write : grows.

Lemma grows_download_image u path : grows (download_image w u path).
Proof.
  unfold download_image, download_body, with_open, write_chunks, print.
  auto 12 with grows.
Qed.

End DownloadFacts.

(** ** [download_image] *)

Lemma append_assoc (a b c : string) : ((a ++ b) ++ c = a ++ (b ++ c))%string.
Proof.
  induction a as [|x a IH]; [reflexivity|].
  change (String x ((a ++ b) ++ c) = String x (a ++ (b ++ c)))%string.
  now rewrite IH.
Qed.

Lemma append_empty_r (a : string) : (a ++ EmptyString)%string = a.
Proof.
  induction a as [|x a IH]; [reflexivity|].
  change (String x (a ++ EmptyString) = String x a)%string.
  now rewrite IH.
Qed.

Lemma calls_ok_app w h t1 t2 :
  calls_ok w h t1 -> calls_ok w (h ++ t1) t2 -> calls_ok w h (t1 ++ t2).
Proof.
  revert h; induction t1 as [|e t1 IH]; intros h H1 H2; simpl in *.
  - now rewrite app_nil_r in H2.
  - destruct H1 as [He H1]. split; [exact He|].
    apply IH; [exact H1|]. now rewrite <- app_assoc.
Qed.

Section DownloadRun.

Variable w : World.

Lemma write_loop save_path chunks st f0 old :
  files st = <[save_path := old]> f0 ->
  match
    for_each chunks
      (fun _ chunk =>
         if PyStr.is_empty chunk then ret tt else write w save_path chunk) tt st
  with
  | (Ret _, st') =>
      files st' =
        <[save_path := (old ++ fold_right String.append EmptyString chunks)%string]> f0 /\
      trace st' = (trace st ++ chunk_writes save_path chunks)%list /\
      calls_ok w (trace st) (chunk_writes save_path chunks)
  | (Raise _, _) => True
  end.
Proof.
  revert st old; induction chunks as [|c chunks IH]; intros st old Hf.
  - simpl. now rewrite append_empty_r, app_nil_r.
  - rewrite for_each_cons. destruct c as [|x c].
    + cbv beta. change (PyStr.is_empty EmptyString) with true. cbv iota.
      unfold ret at 1. specialize (IH st old Hf). simpl fold_right. exact IH.
    + cbv beta. change (PyStr.is_empty (String x c)) with false. cbv iota.
      unfold write. rewrite bind_run, os_call_run.
      destruct (os_error w (trace st) (EvWrite save_path (String x c))) eqn:Eos;
        [exact I|].
      unfold append_file.
      set (st1 := {| files := _; trace := _ |}).
      assert (Hf1 : files st1 = <[save_path := (old ++ String x c)%string]> f0).
      { unfold st1. simpl. rewrite Hf, lookup_insert_eq. simpl.
        now rewrite insert_insert_eq. }
      specialize (IH st1 _ Hf1).
      destruct (for_each chunks _ tt st1) as [[[]|e] st2]; [|exact I].
      destruct IH as (Hfiles & Htrace & Hok).
      unfold chunk_writes in *. simpl.
      split; [now rewrite Hfiles, append_assoc|].
      split; [rewrite Htrace; unfold st1; simpl; now rewrite <- app_assoc|].
      split; [intros _; exact Eos|exact Hok].
Qed.

Lemma download_body_ret img_url save_path st a st' :
  download_body w img_url save_path st = (Ret a, st') ->
  a = true /\
  exists r,
    requests_get w (trace st) img_url = Ret r /\
    status_error r = None /\
    content_error r = None /\
    files st' = <[save_path := payload r]> (files st) /\
    trace st' = (trace st ++ EvGet img_url 30 true :: download_calls save_path r)%list /\
    calls_ok w (trace st ++ [EvGet img_url 30 true]) (download_calls save_path r).
Proof.
  unfold download_body. rewrite bind_run, get_run.
  destruct (requests_get w (trace st) img_url) as [r|e]; [|discriminate].
  rewrite bind_run. destruct (status_error r) as [e|] eqn:Estatus; [discriminate|].
  simpl of_option. unfold ret at 1. rewrite bind_run, os_call_run.
  set (st1 := extend st [EvGet img_url 30 true]).
  destruct (os_error w (trace st1) (EvMakedirs (PyUrl.dirname save_path))) eqn:Emk;
    [discriminate|].
  rewrite bind_run. unfold with_open. rewrite bind_run, os_call_run.
  set (st2 := extend st1 [EvMakedirs (PyUrl.dirname save_path)]).
  destruct (os_error w (trace st2) (EvOpen save_path)) eqn:Eopen; [discriminate|].
  rewrite bind_run. unfold set_file at 1.
  set (st3 := {| files := _; trace := _ |}).
  unfold try_finally, write_chunks. rewrite bind_run.
  pose proof (write_loop save_path (content r) st3 (files st) EmptyString eq_refl) as Hloop.
  destruct (for_each (content r) _ tt st3) as [[[]|e] st4].
  2:{ rewrite os_call_run. destruct (os_error w (trace st4) (EvClose save_path)); discriminate. }
  destruct Hloop as (Hfiles & Htrace & Hok).
  destruct (content_error r) as [e|] eqn:Econtent; simpl of_option.
  { unfold raise. rewrite os_call_run.
    destruct (os_error w (trace st4) (EvClose save_path)); discriminate. }
  unfold ret at 1. rewrite os_call_run.
  destruct (os_error w (trace st4) (EvClose save_path)) eqn:Eclose; [discriminate|].
  unfold ret. intros [= <- <-]. split; [reflexivity|].
  exists r.
  assert (Ht3 : trace st3 =
    (trace st ++ [EvGet img_url 30 true; EvMakedirs (PyUrl.dirname save_path);
                  EvOpen save_path])%list).
  { unfold st3, st2, st1, extend. simpl. now rewrite <- !app_assoc. }
  rewrite Ht3 in Htrace, Hok. rewrite Htrace in Eclose.
  assert (Ht2 : trace st2 =
    (trace st ++ [EvGet img_url 30 true; EvMakedirs (PyUrl.dirname save_path)])%list).
  { unfold st2, st1, extend. simpl. now rewrite <- !app_assoc. }
  rewrite Ht2 in Eopen.
  split; [reflexivity|]. split; [exact Estatus|]. split; [exact Econtent|].
  split; [exact Hfiles|]. split.
  - unfold extend. simpl. rewrite Htrace. unfold download_calls.
    rewrite <- !app_assoc. reflexivity.
  - unfold download_calls. simpl calls_ok.
    split; [intros _; exact Emk|].
    rewrite <- !app_assoc. simpl.
    split; [intros _; exact Eopen|].
    apply calls_ok_app.
    + exact Hok.
    + simpl. split; [|exact I]. intros _.
      rewrite <- !app_assoc. simpl. rewrite <- !app_assoc in Eclose. exact Eclose.
Qed.

Lemma download_image_run img_url save_path st :
  download_image w img_url save_path st =
  match download_body w img_url save_path st with
  | (Ret a, st') => (Ret a, st')
  | (Raise e, st') => (Ret false, extend st' [EvPrint (LogDownloadFailed img_url e)])
  end.
Proof.
  unfold download_image, try_except.
  destruct (download_body w img_url save_path st) as [[a|e] st']; [reflexivity|].
  unfold print. now rewrite bind_run, emit_run.
Qed.

End DownloadRun.

Lemma grows_download_body w u path : grows (download_body w u path).
Proof.
  unfold download_body, with_open, write_chunks.
  auto 12 using grows_get, grows_os_call, grows_write with grows.
Qed.

(** Claim C8. [download_image] always returns a boolean and never raises.
    It returns [True] only if the request, the status check and the stream
    raised nothing and no call of the file system failed, and then the file
    at the destination holds the payload. In every other case it returns
    [False], the message for the failure being the last thing it did. *)
Theorem download_image_returns_bool (w : World) (img_url save_path : string)
  (st : State) :
  exists b st',
    download_image w img_url save_path st = (Ret b, st') /\
    (b = true ->
     exists r,
       requests_get w (trace st) img_url = Ret r /\
       status_error r = None /\
       content_error r = None /\
       files st' = <[save_path := payload r]> (files st) /\
       trace st' = (trace st ++ EvGet img_url 30 true :: download_calls save_path r)%list /\
       calls_ok w (trace st ++ [EvGet img_url 30 true]) (download_calls save_path r)) /\
    (b = false ->
     exists e t,
       trace st' = (trace st ++ t ++ [EvPrint (LogDownloadFailed img_url e)])%list) /\
    ((exists e, requests_get w (trace st) img_url = Raise e) -> b = false) /\
    (forall r, requests_get w (trace st) img_url = Ret r ->
       status_error r <> None \/ content_error r <> None -> b = false) /\
    (os_error w (trace st ++ [EvGet img_url 30 true])
       (EvMakedirs (PyUrl.dirname save_path)) = true -> b = false).
Proof.
  rewrite download_image_run.
  destruct (grows_download_body w img_url save_path st) as [t Ht].
  destruct (download_body w img_url save_path st) as [[a|e] st1] eqn:E; simpl in Ht.
  - apply download_body_ret in E as (-> & r & Hget & Hst & Hc & Hf & Htr & Hok).
    exists true, st1. split; [reflexivity|]. split; [eauto 10|].
    split; [discriminate|]. split; [|split].
    + intros [e He]. congruence.
    + intros r' Hr' [H|H]; congruence.
    + intros Hmk. destruct Hok as [Hok _]. rewrite Hok in Hmk; [discriminate|reflexivity].
  - exists false, (extend st1 [EvPrint (LogDownloadFailed img_url e)]).
    split; [reflexivity|]. split; [discriminate|]. split; [|auto].
    intros _. exists e, t. unfold extend. simpl. now rewrite Ht, <- app_assoc.
Qed.

Lemma download_image_returns_bool_witness :
  exists b st',
    download_image (py_world (serving sample_response) sound_disk)
      "https://cdn.example.com/a.jpg" "downloaded_images/0001_a.jpg" initial =
      (Ret b, st') /\
    (b = true ->
     exists r,
       serving sample_response [] "https://cdn.example.com/a.jpg" = Ret r /\
       status_error r = None /\
       content_error r = None /\
       files st' = <["downloaded_images/0001_a.jpg"%string := payload r]> ∅ /\
       trace st' =
         ([] ++ EvGet "https://cdn.example.com/a.jpg" 30 true ::
            download_calls "downloaded_images/0001_a.jpg" r)%list /\
       calls_ok (py_world (serving sample_response) sound_disk)
         ([] ++ [EvGet "https://cdn.example.com/a.jpg" 30 true])
         (download_calls "downloaded_images/0001_a.jpg" r)) /\
    (b = false ->
     exists e t,
       trace st' =
         ([] ++ t ++ [EvPrint (LogDownloadFailed "https://cdn.example.com/a.jpg" e)])%list) /\
    ((exists e, serving sample_response [] "https://cdn.example.com/a.jpg" = Raise e) ->
     b = false) /\
    (forall r, serving sample_response [] "https://cdn.example.com/a.jpg" = Ret r ->
       status_error r <> None \/ content_error r <> None -> b = false) /\
    (sound_disk ([] ++ [EvGet "https://cdn.example.com/a.jpg" 30 true])
       (EvMakedirs (PyUrl.dirname "downloaded_images/0001_a.jpg")) = true -> b = false).
Proof.
  apply (download_image_returns_bool (py_world (serving sample_response) sound_disk)
           "https://cdn.example.com/a.jpg" "downloaded_images/0001_a.jpg" initial).
Defined.

(** A download that succeeds, and one that fails on the network. *)
Example download_image_success :
  download_image (py_world (serving sample_response) sound_disk)
    "https://cdn.example.com/a.jpg" "downloaded_images/0001_a.jpg" initial =
  (Ret true,
   {| files := <["downloaded_images/0001_a.jpg"%string := "abcde"%string]> ∅;
      trace := [EvGet "https://cdn.example.com/a.jpg" 30 true;
                EvMakedirs "downloaded_images";
                EvOpen "downloaded_images/0001_a.jpg";
                EvWrite "downloaded_images/0001_a.jpg" "abc";
                EvWrite "downloaded_images/0001_a.jpg" "de";
                EvClose "downloaded_images/0001_a.jpg"] |}).
Proof. vm_compute. reflexivity. Qed.

Example download_image_failure :
  download_image (py_world offline sound_disk)
    "https://cdn.example.com/a.jpg" "downloaded_images/0001_a.jpg" initial =
  (Ret false,
   {| files := ∅;
      trace := [EvGet "https://cdn.example.com/a.jpg" 30 true;
                EvPrint (LogDownloadFailed "https://cdn.example.com/a.jpg"
                           RequestException)] |}).
Proof. reflexivity. Qed.


(** ** [save_images] *)

#[local] Hint Resolve grows_get grows_os_call grows_write grows_download_image : grows.

Lemma prefix_without {A} (P : A -> bool) (pre t2 h rest : list A) (x : A) :
  forallb (fun a => negb (P a)) pre = true ->
  P x = true ->
  (h ++ x :: rest = pre ++ t2)%list ->
  exists h', h = (pre ++ h')%list.
Proof.
  revert h; induction pre as [|a pre IH]; intros h Hpre Hx E; simpl in *.
  - eauto.
  - apply andb_true_iff in Hpre as [Ha Hpre].
    destruct h as [|b h]; simpl in E; injection E as -> E.
    + rewrite Hx in Ha. discriminate.
    + destruct (IH h Hpre Hx E) as [h' ->]. eauto.
Qed.

Lemma no_get_inside (t h rest : list event) (x : event) :
  forallb (fun a => negb (is_get a)) t = true ->
  is_get x = true ->
  t <> (h ++ x :: rest)%list.
Proof.
  intros Ht Hx ->. rewrite forallb_app in Ht. simpl in Ht.
  rewrite Hx in Ht. simpl in Ht. now rewrite andb_false_r in Ht.
Qed.

Lemma no_get_urls (t : list event) :
  forallb (fun a => negb (is_get a)) t = true -> get_urls t = [].
Proof.
  induction t as [|e t IH]; simpl; [reflexivity|].
  intros [He Ht]%andb_true_iff. destruct e; simpl in *; auto; discriminate.
Qed.

Section SaveFacts.
Variable w : World.

Lemma write_run path data st :
  write w path data st =
  if os_error w (trace st) (EvWrite path data)
  then (Raise OSError, extend st [EvWrite path data])
  else (Ret tt,
        {| files := <[path := (default EmptyString (files st !! path) ++ data)%string]>
                      (files st);
           trace := (trace st ++ [EvWrite path data])%list |}).
Proof.
  unfold write. rewrite bind_run, os_call_run.
  now destruct (os_error w (trace st) (EvWrite path data)).
Qed.

Lemma with_open_run {A} path (body : M A) st :
  with_open w path body st =
  if os_error w (trace st) (EvOpen path)
  then (Raise OSError, extend st [EvOpen path])
  else
    let (r, st2) :=
      body {| files := <[path := EmptyString]> (files st);
              trace := (trace st ++ [EvOpen path])%list |} in
    if os_error w (trace st2) (EvClose path)
    then (Raise OSError, extend st2 [EvClose path])
    else (r, extend st2 [EvClose path]).
Proof.
  unfold with_open. rewrite bind_run, os_call_run.
  destruct (os_error w (trace st) (EvOpen path)); [reflexivity|].
  rewrite bind_run. unfold set_file at 1, try_finally. simpl.
  destruct (body _) as [r st2]. rewrite os_call_run.
  now destruct (os_error w (trace st2) (EvClose path)).
Qed.

Lemma manifest_run image_data_list st :
  exists r st1 t,
    (os_call w (EvMakedirs SAVE_DIR) ;;
     with_open w json_path (write w json_path (json_dumps w image_data_list)) ;;
     print (LogManifestSaved json_path)) st = (r, st1) /\
    trace st1 = (trace st ++ t)%list /\
    forallb (fun e => negb (is_get e)) t = true /\
    sleeps t = [] /\
    (forall e, In e t -> In e (manifest_calls w image_data_list)) /\
    (forall q, q <> json_path -> files st1 !! q = files st !! q) /\
    (r = Ret tt ->
     t = manifest_calls w image_data_list /\
     files st1 !! json_path = Some (json_dumps w image_data_list) /\
     calls_ok w (trace st) t).
Proof.
  rewrite bind_run, os_call_run.
  destruct (os_error w (trace st) (EvMakedirs SAVE_DIR)) eqn:E1.
  { exists (Raise OSError), (extend st [EvMakedirs SAVE_DIR]), [EvMakedirs SAVE_DIR].
    split; [reflexivity|]. split; [reflexivity|]. split; [reflexivity|].
    split; [reflexivity|]. split; [intros e [<-|[]]; now left|].
    split; [reflexivity|]. discriminate. }
  rewrite bind_run, with_open_run. simpl trace. simpl files.
  destruct (os_error w _ (EvOpen json_path)) eqn:E2.
  { exists (Raise OSError),
      (extend (extend st [EvMakedirs SAVE_DIR]) [EvOpen json_path]),
      [EvMakedirs SAVE_DIR; EvOpen json_path].
    split; [reflexivity|]. split; [simpl; now rewrite <- app_assoc|].
    split; [reflexivity|]. split; [reflexivity|].
    split; [intros e [<-|[<-|[]]]; simpl; auto|].
    split; [reflexivity|]. discriminate. }
  rewrite write_run. simpl trace. simpl files.
  destruct (os_error w _ (EvWrite json_path _)) eqn:E3.
  { simpl trace.
    exists (Raise OSError). eexists.
    exists [EvMakedirs SAVE_DIR; EvOpen json_path;
            EvWrite json_path (json_dumps w image_data_list); EvClose json_path].
    split; [destruct (os_error w _ (EvClose json_path)); reflexivity|].
    split; [simpl; now rewrite <- !app_assoc|].
    split; [reflexivity|]. split; [reflexivity|].
    split; [intros e [<-|[<-|[<-|[<-|[]]]]]; simpl; auto|].
    split; [intros q Hq; simpl; now rewrite lookup_insert_ne|]. discriminate. }
  simpl trace.
  destruct (os_error w _ (EvClose json_path)) eqn:E4.
  { exists (Raise OSError). eexists.
    exists [EvMakedirs SAVE_DIR; EvOpen json_path;
            EvWrite json_path (json_dumps w image_data_list); EvClose json_path].
    split; [reflexivity|].
    split; [simpl; now rewrite <- !app_assoc|].
    split; [reflexivity|]. split; [reflexivity|].
    split; [intros e [<-|[<-|[<-|[<-|[]]]]]; simpl; auto|].
    split; [intros q Hq; simpl; now rewrite !lookup_insert_ne|]. discriminate. }
  unfold print. rewrite emit_run.
  exists (Ret tt). eexists. exists (manifest_calls w image_data_list).
  split; [reflexivity|].
  split; [simpl; now rewrite <- !app_assoc|].
  split; [reflexivity|]. split; [reflexivity|]. split; [auto|].
  split; [intros q Hq; simpl; now rewrite !lookup_insert_ne|].
  intros _. split; [reflexivity|]. split.
  - simpl. now rewrite !lookup_insert_eq.
  - unfold manifest_calls. simpl.
    repeat split; try (intros _; assumption); discriminate.
Qed.

Lemma grows_download_step total p img_data : grows (download_step w total p img_data).
Proof.
  unfold download_step, print, sleep.
  auto 8 with grows.
Qed.

Lemma grows_download_loop total l p :
  grows (for_each l (download_step w total) p).
Proof. apply grows_for_each. intros. apply grows_download_step. Qed.

(** The part of [save_images] after the test of [download]. *)
Lemma save_images_run image_data_list download st :
  save_images w image_data_list download st =
  match
    (os_call w (EvMakedirs SAVE_DIR) ;;
     with_open w json_path (write w json_path (json_dumps w image_data_list)) ;;
     print (LogManifestSaved json_path)) st
  with
  | (Ret _, st1) =>
      if download then
        (print LogDownloadStart ;;
         p <- for_each image_data_list
                (download_step w (List.length image_data_list))
                {| idx := 1; success_count := 0 |} ;;
         print (LogDownloadDone (success_count p) (List.length image_data_list))) st1
      else (Ret tt, st1)
  | (Raise e, st1) => (Raise e, st1)
  end.
Proof.
  unfold save_images, bind.
  destruct (os_call w (EvMakedirs SAVE_DIR) st) as [[[]|e] st0]; [|reflexivity].
  destruct (with_open w json_path
              (write w json_path (json_dumps w image_data_list)) st0)
    as [[[]|e] st1]; [|reflexivity].
  destruct (print (LogManifestSaved json_path) st1) as [[[]|e] st2]; [|reflexivity].
  now destruct download.
Qed.





End SaveFacts.



(** A run with two records, one of them without a recognised extension:
    the requests, the pauses and the files written. *)
Example save_images_two_records :
  let st := snd (save_images (py_world (serving sample_response) sound_disk)
                   [ {| url := "https://cdn.example.com/a.jpg"; title := "Cat";
                        filename := "a.jpg" |};
                     {| url := "https://cdn.example.com/b"; title := "Dog";
                        filename := "b?" |} ] true initial) in
  get_urls (trace st) = ["https://cdn.example.com/a.jpg"; "https://cdn.example.com/b"]%string /\
  sleeps (trace st) = [500%N; 500%N] /\
  files st !! "downloaded_images/0001_a.jpg"%string = Some "abcde"%string /\
  files st !! "downloaded_images/0002_b_.jpg"%string = Some "abcde"%string.
Proof. vm_compute. repeat split; reflexivity. Qed.

(** The scenario of two pages that show the same image: one record. *)
Example crawl_two_pages_one_image :
  fst (crawl_images (py_world (serving one_image_page) sound_disk) 2 initial) =
  Ret [ {| url := "https://cdn.example.com/x.jpg"; title := "x.jpg";
           filename := "x.jpg" |} ].
Proof. vm_compute. reflexivity. Qed.

(** * Further properties *)

(** ** Strings, continued *)

Lemma append_cons (c : ascii) (a b : string) :
  (String c a ++ b)%string = String c (a ++ b)%string.
Proof. reflexivity. Qed.

Lemma append_length (a b : string) :
  String.length (a ++ b) = String.length a + String.length b.
Proof.
  induction a as [|c a IH]; [reflexivity|].
  rewrite append_cons. simpl. now rewrite IH.
Qed.

Lemma append_inj_r (a b s : string) : (a ++ s = b ++ s)%string -> a = b.
Proof.
  revert b; induction a as [|c a IH]; intros [|d b] E.
  - reflexivity.
  - apply (f_equal String.length) in E. rewrite !append_length in E.
    simpl in E. lia.
  - apply (f_equal String.length) in E. rewrite !append_length in E.
    simpl in E. lia.
  - rewrite !append_cons in E. injection E as -> E. f_equal. now apply IH.
Qed.

Lemma mem_append c (a b : string) :
  PyStr.mem c (a ++ b) = PyStr.mem c a || PyStr.mem c b.
Proof.
  induction a as [|d a IH]; [reflexivity|].
  rewrite append_cons. simpl. now rewrite IH, orb_assoc.
Qed.

Lemma all_chars_append q (a b : string) :
  PyStr.all_chars q (a ++ b) = PyStr.all_chars q a && PyStr.all_chars q b.
Proof.
  induction a as [|d a IH]; [reflexivity|].
  rewrite append_cons. simpl. now rewrite IH, andb_assoc.
Qed.

Lemma all_chars_impl (q1 q2 : ascii -> bool) s :
  (forall c, q1 c = true -> q2 c = true) ->
  PyStr.all_chars q1 s = true -> PyStr.all_chars q2 s = true.
Proof.
  intros Hq. induction s as [|c s IH]; simpl; [reflexivity|].
  intros [H1 H2]%andb_true_iff. now rewrite (Hq c H1), IH.
Qed.

Lemma lstrip_all q s : PyStr.all_chars q s = true -> PyStr.lstrip q s = EmptyString.
Proof.
  induction s as [|c s IH]; simpl; [reflexivity|].
  intros [H1 H2]%andb_true_iff. now rewrite H1, IH.
Qed.

Lemma map_append f (a b : string) :
  PyStr.map f (a ++ b) = (PyStr.map f a ++ PyStr.map f b)%string.
Proof.
  induction a as [|d a IH]; [reflexivity|].
  rewrite append_cons. simpl. rewrite IH. reflexivity.
Qed.

Lemma endswith_refl e : PyStr.endswith e e = true.
Proof. destruct e; simpl; [reflexivity|]. now rewrite Ascii.eqb_refl, String.eqb_refl. Qed.

Lemma endswith_append e (a s : string) :
  PyStr.endswith e s = true -> PyStr.endswith e (a ++ s) = true.
Proof.
  intros H. induction a as [|d a IH]; [exact H|].
  rewrite append_cons. simpl. rewrite IH. apply orb_true_r.
Qed.

Lemma rfind_absent c s : PyStr.mem c s = false -> PyStr.rfind c s = None.
Proof.
  induction s as [|d s IH]; simpl; [reflexivity|].
  intros [H1 H2]%orb_false_iff. now rewrite (IH H2), H1.
Qed.

Lemma rfind_append_absent c (a b : string) :
  PyStr.mem c b = false -> PyStr.rfind c (a ++ b) = PyStr.rfind c a.
Proof.
  intros H. induction a as [|d a IH].
  - simpl. now apply rfind_absent.
  - rewrite append_cons. simpl. now rewrite IH.
Qed.

Lemma take_append (a b : string) : PyStr.take (String.length a) (a ++ b) = a.
Proof.
  induction a as [|d a IH]; [now destruct b|].
  rewrite append_cons. simpl. now rewrite IH.
Qed.

(** ** [sanitize_filename], continued *)

(** A name that is already clean is left as it is: no character of the
    class, no period or space at either end, between 1 and 200
    characters. *)
Theorem sanitize_filename_clean_name (c : ascii) (r : string) :
  PyStr.all_chars legal (String c r) = true ->
  dot_or_space c = false ->
  (forall d, PyStr.last (String c r) = Some d -> dot_or_space d = false) ->
  String.length (String c r) <= 200 ->
  sanitize_filename (String c r) = String c r.
Proof.
  intros Hlegal Hc Hlast Hlen. unfold sanitize_filename.
  rewrite (re_sub_illegal_id _ Hlegal). unfold PyStr.strip.
  rewrite (lstrip_fixed _ _ _ Hc), (rstrip_fixed _ _ Hlast).
  simpl PyStr.is_empty. cbv iota. now apply take_all.
Qed.

Lemma sanitize_filename_clean_name_witness :
  sanitize_filename "cat photo (1).jpeg" = "cat photo (1).jpeg"%string.
Proof.
  apply (sanitize_filename_clean_name "c" "at photo (1).jpeg").
  - reflexivity.
  - reflexivity.
  - intros d [= <-]. reflexivity.
  - vm_compute. lia.
Defined.

(** A name made of periods and spaces only, the empty name among them,
    becomes [unnamed]. *)
Theorem sanitize_filename_default_name (x : string) :
  PyStr.all_chars dot_or_space x = true ->
  sanitize_filename x = "unnamed"%string.
Proof.
  intros H. unfold sanitize_filename.
  rewrite re_sub_illegal_id.
  - unfold PyStr.strip. rewrite (lstrip_all _ _ H). reflexivity.
  - revert H. apply all_chars_impl. intros c. unfold dot_or_space. simpl.
    destruct (Ascii.eqb_spec c "."); [subst; reflexivity|].
    destruct (Ascii.eqb_spec c " "); [subst; reflexivity|]. discriminate.
Qed.

Lemma sanitize_filename_default_name_witness :
  sanitize_filename " .. . " = "unnamed"%string.
Proof. apply (sanitize_filename_default_name " .. . "). reflexivity. Defined.

(** The result never starts with a period or a space, so it is neither [.]
    nor [..] nor a hidden name. *)
Theorem sanitize_filename_no_leading_dot (x : string) :
  PyStr.startswith "." (sanitize_filename x) = false /\
  PyStr.startswith " " (sanitize_filename x) = false.
Proof.
  destruct (sanitize_head x) as (c & r & -> & Hc).
  unfold dot_or_space in Hc. simpl in Hc.
  apply orb_false_iff in Hc as [H1 H2]. apply orb_false_iff in H2 as [H2 _].
  rewrite Ascii.eqb_sym in H1. rewrite Ascii.eqb_sym in H2.
  change (PyStr.startswith "." (String c r)) with (Ascii.eqb "." c && true).
  change (PyStr.startswith " " (String c r)) with (Ascii.eqb " " c && true).
  now rewrite H1, H2.
Qed.

(** ** Numbers in names *)

Lemma string_of_uint_digits d :
  PyStr.all_chars is_digit (NilEmpty.string_of_uint d) = true.
Proof. induction d; simpl; auto. Qed.

Lemma of_nat_digits n : PyStr.all_chars is_digit (PyStr.of_nat n) = true.
Proof.
  unfold PyStr.of_nat, NilZero.string_of_uint.
  destruct (Nat.to_uint n) eqn:E; try reflexivity;
    rewrite <- E; apply string_of_uint_digits.
Qed.

Lemma of_nat_nonempty n : PyStr.of_nat n <> EmptyString.
Proof.
  unfold PyStr.of_nat, NilZero.string_of_uint.
  destruct (Nat.to_uint n); discriminate.
Qed.

Lemma repeat_zero_digits k : PyStr.all_chars is_digit (PyStr.repeat "0" k) = true.
Proof. induction k as [|k IH]; [reflexivity|]. simpl. exact IH. Qed.

Lemma pad04_digits n : PyStr.all_chars is_digit (PyStr.pad04 n) = true.
Proof.
  unfold PyStr.pad04. now rewrite all_chars_append, repeat_zero_digits, of_nat_digits.
Qed.

Lemma pad04_head n : exists c r, PyStr.pad04 n = String c r /\ is_digit c = true.
Proof.
  pose proof (pad04_digits n) as H. unfold PyStr.pad04 in *.
  destruct (PyStr.repeat "0" (4 - String.length (PyStr.of_nat n))) as [|c r] eqn:E.
  - simpl in *. pose proof (of_nat_nonempty n) as Hne.
    destruct (PyStr.of_nat n) as [|c r]; [contradiction|].
    simpl in H. apply andb_true_iff in H as [H _]. eauto.
  - rewrite append_cons in *. simpl in H.
    apply andb_true_iff in H as [H _]. eauto.
Qed.

Lemma of_uint_D0 d : Nat.of_uint (Decimal.D0 d) = Nat.of_uint d.
Proof. reflexivity. Qed.

Lemma of_nat_decode n :
  exists d, NilEmpty.uint_of_string (PyStr.of_nat n) = Some d /\ Nat.of_uint d = n.
Proof.
  unfold PyStr.of_nat, NilZero.string_of_uint.
  pose proof (DecimalNat.Unsigned.of_to n) as Hn.
  destruct (Nat.to_uint n) eqn:E.
  - exists (Decimal.D0 Decimal.Nil). split; [reflexivity|]. exact Hn.
  - rewrite <- E. rewrite NilEmpty.usu. exists (Nat.to_uint n). now rewrite E.
  - rewrite <- E. rewrite NilEmpty.usu. exists (Nat.to_uint n). now rewrite E.
  - rewrite <- E. rewrite NilEmpty.usu. exists (Nat.to_uint n). now rewrite E.
  - rewrite <- E. rewrite NilEmpty.usu. exists (Nat.to_uint n). now rewrite E.
  - rewrite <- E. rewrite NilEmpty.usu. exists (Nat.to_uint n). now rewrite E.
  - rewrite <- E. rewrite NilEmpty.usu. exists (Nat.to_uint n). now rewrite E.
  - rewrite <- E. rewrite NilEmpty.usu. exists (Nat.to_uint n). now rewrite E.
  - rewrite <- E. rewrite NilEmpty.usu. exists (Nat.to_uint n). now rewrite E.
  - rewrite <- E. rewrite NilEmpty.usu. exists (Nat.to_uint n). now rewrite E.
  - rewrite <- E. rewrite NilEmpty.usu. exists (Nat.to_uint n). now rewrite E.
Qed.

Lemma pad04_decode n :
  exists d, NilEmpty.uint_of_string (PyStr.pad04 n) = Some d /\ Nat.of_uint d = n.
Proof.
  unfold PyStr.pad04.
  induction (4 - String.length (PyStr.of_nat n)) as [|k IH].
  - apply of_nat_decode.
  - destruct IH as (d & Hd & Hn). exists (Decimal.D0 d).
    change (PyStr.repeat "0" (S k) ++ PyStr.of_nat n)%string
      with (String "0" (PyStr.repeat "0" k ++ PyStr.of_nat n)%string).
    simpl. rewrite Hd. split; [reflexivity|]. now rewrite of_uint_D0.
Qed.

Lemma pad04_inj i j : PyStr.pad04 i = PyStr.pad04 j -> i = j.
Proof.
  intros E.
  destruct (pad04_decode i) as (di & Hi & <-).
  destruct (pad04_decode j) as (dj & Hj & <-).
  rewrite E in Hi. congruence.
Qed.

(** Two strings without the separator that are followed by it are equal
    when the whole strings are. *)
Lemma split_at_separator (sep : ascii) (a b x y : string) :
  PyStr.mem sep a = false -> PyStr.mem sep b = false ->
  (a ++ String sep x = b ++ String sep y)%string -> a = b.
Proof.
  revert b; induction a as [|c a IH]; intros [|d b] Ha Hb E.
  - reflexivity.
  - rewrite append_cons in E. simpl in E. injection E as <- _.
    simpl in Hb. now rewrite Ascii.eqb_refl in Hb.
  - rewrite append_cons in E. simpl in E. injection E as -> _.
    simpl in Ha. now rewrite Ascii.eqb_refl in Ha.
  - rewrite !append_cons in E. injection E as -> E.
    simpl in Ha, Hb. apply orb_false_iff in Ha as [_ Ha].
    apply orb_false_iff in Hb as [_ Hb]. f_equal. now apply IH.
Qed.

Lemma digits_without c s :
  is_digit c = false -> PyStr.all_chars is_digit s = true -> PyStr.mem c s = false.
Proof. intros Hc Hs. now apply (all_chars_mem is_digit). Qed.

(** ** [save_images]: the destination paths *)

(** The file name that follows the ordinal in a destination. *)
Lemma save_path_of_unfold idx img_data :
  exists fn,
    save_path_of idx img_data =
      ("downloaded_images/" ++ PyStr.pad04 idx ++ String "_" fn)%string /\
    PyStr.all_chars legal fn = true /\
    existsb (fun ext => PyStr.endswith ext (PyStr.lower fn)) image_extensions = true.
Proof.
  unfold save_path_of.
  set (f := sanitize_filename (filename img_data)).
  set (fn := if existsb _ image_extensions then f else (f ++ ".jpg")%string).
  exists fn. split; [|split].
  - unfold PyUrl.path_join.
    destruct (pad04_head idx) as (c & r & E & Hc). rewrite E.
    rewrite append_cons.
    assert (Hs : PyStr.startswith "/" (String c (r ++ "_" ++ fn))%string = false).
    { change (Ascii.eqb "/" c && true = false).
      destruct (Ascii.eqb_spec "/" c) as [<-|]; [discriminate|reflexivity]. }
    rewrite Hs. reflexivity.
  - unfold fn. destruct (existsb _ image_extensions).
    + apply sanitize_legal.
    + rewrite all_chars_append. unfold f. now rewrite sanitize_legal.
  - unfold fn. destruct (existsb _ image_extensions) eqn:E; [exact E|].
    simpl. unfold PyStr.lower. rewrite map_append.
    rewrite (endswith_append ".jpg" _ (PyStr.map PyStr.lower_char ".jpg"));
      reflexivity.
Qed.

Lemma save_path_of_in_save_dir_aux idx img_data :
  exists name,
    save_path_of idx img_data = ("downloaded_images/" ++ name)%string /\
    PyStr.mem "/" name = false.
Proof.
  destruct (save_path_of_unfold idx img_data) as (fn & E & Hlegal & Hext).
  exists (PyStr.pad04 idx ++ String "_" fn)%string. split; [exact E|].
  rewrite mem_append, (digits_without "/" _ eq_refl (pad04_digits idx)).
  simpl. now apply (all_chars_mem legal).
Qed.

(** Every destination lies directly in [SAVE_DIR], whatever the record's
    file name is, and ends with one of the five extensions. *)
Theorem save_path_of_in_save_dir (idx : nat) (img_data : ImageRecord) :
  exists name,
    save_path_of idx img_data = ("downloaded_images/" ++ name)%string /\
    PyStr.mem "/" name = false /\
    PyUrl.dirname (save_path_of idx img_data) = SAVE_DIR /\
    existsb (fun ext => PyStr.endswith ext (PyStr.lower (save_path_of idx img_data)))
      image_extensions = true.
Proof.
  destruct (save_path_of_unfold idx img_data) as (fn & E & Hlegal & Hext).
  exists (PyStr.pad04 idx ++ String "_" fn)%string.
  assert (Hno : PyStr.mem "/" (PyStr.pad04 idx ++ String "_" fn) = false).
  { rewrite mem_append, (digits_without "/" _ eq_refl (pad04_digits idx)).
    simpl. now apply (all_chars_mem legal). }
  split; [exact E|]. split; [exact Hno|]. split.
  - rewrite E. unfold PyUrl.dirname.
    rewrite (rfind_append_absent _ _ _ Hno).
    change (PyStr.rfind "/" "downloaded_images/") with (Some 17).
    cbv beta iota zeta.
    pose proof (take_append "downloaded_images/" (PyStr.pad04 idx ++ String "_" fn))
      as Htake.
    change (String.length "downloaded_images/") with 18 in Htake.
    rewrite Htake. reflexivity.
  - rewrite E. apply existsb_exists in Hext as (ext & Hin & Hext).
    apply existsb_exists. exists ext. split; [exact Hin|].
    unfold PyStr.lower in *. rewrite !map_append.
    apply endswith_append, endswith_append.
    change (PyStr.map PyStr.lower_char (String "_" fn))
      with (String "_" (PyStr.map PyStr.lower_char fn)).
    change (String "_" (PyStr.map PyStr.lower_char fn))
      with ("_" ++ PyStr.map PyStr.lower_char fn)%string.
    now apply endswith_append.
Qed.

(** Two positions never share a destination, so no download of a run
    overwrites another one. *)
Theorem save_path_of_injective (i j : nat) (r1 r2 : ImageRecord) :
  save_path_of i r1 = save_path_of j r2 -> i = j.
Proof.
  destruct (save_path_of_unfold i r1) as (f1 & -> & _ & _).
  destruct (save_path_of_unfold j r2) as (f2 & -> & _ & _).
  intros E. apply String.app_inj in E.
  apply pad04_inj. eapply (split_at_separator "_"); [| |exact E];
    apply digits_without; auto using pad04_digits.
Qed.

Lemma save_path_of_injective_witness : 3 = 3.
Proof.
  apply (save_path_of_injective 3 3
           {| url := "u"; title := "t"; filename := "a.jpg" |}
           {| url := "u"; title := "t"; filename := "a.jpg" |}).
  reflexivity.
Defined.

(** ** Page URLs *)

Lemma of_Z_inj a b : PyStr.of_Z a = PyStr.of_Z b -> a = b.
Proof.
  unfold PyStr.of_Z. intros E. apply DecimalZ.to_int_inj.
  assert (Hnn : forall z, Z.to_int z <> Decimal.Pos Decimal.Nil /\ Z.to_int z <> Decimal.Neg Decimal.Nil).
  { intros [|p|p]; simpl; split; try discriminate; intros [= H];
      now apply (DecimalPos.Unsigned.to_uint_nonnil p). }
  pose proof (NilZero.isi (Z.to_int a) (proj1 (Hnn a)) (proj2 (Hnn a))) as Ha.
  pose proof (NilZero.isi (Z.to_int b) (proj1 (Hnn b)) (proj2 (Hnn b))) as Hb.
  rewrite E in Ha. congruence.
Qed.

(** Distinct page numbers have distinct URLs. *)
Theorem BASE_URL_format_injective (a b : Z) :
  BASE_URL_format a = BASE_URL_format b -> a = b.
Proof.
  unfold BASE_URL_format. intros E.
  apply String.app_inj in E.
  apply append_inj_r in E. now apply of_Z_inj.
Qed.

Lemma BASE_URL_format_injective_witness : 7%Z = 7%Z.
Proof. apply (BASE_URL_format_injective 7 7). reflexivity. Defined.

(** ** [fetch_page], continued *)


(** ** [extract_image_urls], continued *)

Section ExtractionMore.

Variable w : World.
Variable base_url : string.

Lemma record_of_None img_tag n :
  record_of w base_url img_tag n = Ret None -> accepted img_tag = false.
Proof.
  unfold record_of, accepted. destruct (source_of img_tag) as [v|]; [|reflexivity].
  destruct (is_skipped v); [reflexivity|].
  intros (u & _ & H)%obind_Ret.
  apply obind_Ret in H as (t & _ & H).
  apply obind_Ret in H as (f & _ & H). discriminate.
Qed.

Lemma record_of_Some_accepted img_tag n r :
  record_of w base_url img_tag n = Ret (Some r) -> accepted img_tag = true.
Proof.
  unfold record_of, accepted. destruct (source_of img_tag) as [v|]; [|discriminate].
  destruct (is_skipped v); [discriminate|reflexivity].
Qed.

(** The records added by the loop are those of the accepted elements, one
    for each, built with the length of the list at that point. *)
Lemma extract_loop_indexed l acc res :
  extract_loop w base_url l acc = Ret res ->
  exists added,
    res = (acc ++ added)%list /\
    List.length added = List.length (List.filter accepted l) /\
    forall k img_tag,
      nth_error (List.filter accepted l) k = Some img_tag ->
      exists r, nth_error added k = Some r /\
        record_of w base_url img_tag (List.length acc + k) = Ret (Some r).
Proof.
  revert acc; induction l as [|t l IH]; intros acc; simpl.
  - intros [= <-]. exists []. rewrite app_nil_r. split; [reflexivity|].
    split; [reflexivity|]. intros [|k] ? [=].
  - intros (acc' & Hstep & Hloop)%obind_Ret.
    apply obind_Ret in Hstep as (o & Hrec & Ho).
    destruct (IH _ Hloop) as (added & -> & Hlen & Hidx).
    destruct o as [r0|]; injection Ho as <-.
    + rewrite (record_of_Some_accepted _ _ _ Hrec).
      exists (r0 :: added). rewrite <- app_assoc. split; [reflexivity|].
      split; [simpl; now rewrite Hlen|].
      intros [|k] img_tag Hk; simpl in Hk.
      * injection Hk as <-. exists r0. split; [reflexivity|].
        now rewrite Nat.add_0_r.
      * destruct (Hidx k img_tag Hk) as (r & Hr & Hrec').
        exists r. split; [exact Hr|].
        rewrite length_app in Hrec'. simpl in Hrec'.
        now replace (List.length acc + S k) with (List.length acc + 1 + k) by lia.
    + rewrite (record_of_None _ _ Hrec).
      exists added. split; [reflexivity|]. split; [exact Hlen|]. exact Hidx.
Qed.

Lemma or_else_nonempty a b : b <> EmptyString -> PyUrl.or_else a b <> EmptyString.
Proof. unfold PyUrl.or_else. destruct a; simpl; [auto|discriminate]. Qed.

Lemma title_of_nonempty img_tag u n t :
  title_of w img_tag u n = Ret t -> t <> EmptyString.
Proof.
  unfold title_of.
  set (t0 := PyStr.strip _ _).
  set (t1 := if PyStr.is_empty t0 then _ else t0).
  destruct (PyStr.is_empty t1) eqn:E.
  - intros (p & _ & [= <-])%obind_Ret. now apply or_else_nonempty.
  - intros [= <-]. now destruct t1.
Qed.

Lemma filename_of_spec u n f :
  filename_of w u n = Ret f ->
  exists p, urlparse_path w u = Ret p /\
    f = PyUrl.or_else (PyUrl.basename p) ("image_" ++ PyStr.of_nat n ++ ".jpg").
Proof. unfold filename_of. intros (p & Hp & [= <-])%obind_Ret. eauto. Qed.

Lemma record_of_fields img_tag n r :
  record_of w base_url img_tag n = Ret (Some r) ->
  exists v,
    source_of img_tag = Some v /\ is_skipped v = false /\
    absolute_url w base_url v = Ret (url r) /\
    title_of w img_tag (url r) n = Ret (title r) /\
    filename_of w (url r) n = Ret (filename r).
Proof.
  unfold record_of. destruct (source_of img_tag) as [v|]; [|discriminate].
  destruct (is_skipped v) eqn:E; [discriminate|].
  intros (u & Hu & H)%obind_Ret.
  apply obind_Ret in H as (t & Ht & H).
  apply obind_Ret in H as (f & Hf & H).
  injection H as <-. simpl. eauto 10.
Qed.

End ExtractionMore.

(** An element without a usable source, that is, whose [data-original],
    [data-src] and [src] are each missing or empty, yields no record: the
    result is the one of the page without it. *)
Theorem element_without_source_is_skipped (w : World) (base_url : string)
  (img_tag : Tag) :
  truthy (tag_get img_tag "data-original") = false ->
  truthy (tag_get img_tag "data-src") = false ->
  truthy (tag_get img_tag "src") = false ->
  forall before after,
    extract_image_urls w {| find_all_img := before ++ img_tag :: after |} base_url =
    extract_image_urls w {| find_all_img := before ++ after |} base_url.
Proof.
  intros H1 H2 H3 before after. unfold extract_image_urls. simpl.
  apply extract_loop_skip. intros n. unfold record_of, source_of.
  now rewrite H1, H2, H3.
Qed.

Lemma element_without_source_is_skipped_witness :
  extract_image_urls (py_world offline sound_disk)
    {| find_all_img :=
         [img [("src", "/p/a.jpg")]%string] ++
         img [("src", ""); ("alt", "Cat")]%string ::
         [img [("src", "/p/b.jpg")]%string] |}
    "https://www.sucai999.com/pic/cate/265_324-1.html" =
  extract_image_urls (py_world offline sound_disk)
    {| find_all_img :=
         [img [("src", "/p/a.jpg")]%string] ++ [img [("src", "/p/b.jpg")]%string] |}
    "https://www.sucai999.com/pic/cate/265_324-1.html".
Proof.
  apply (element_without_source_is_skipped (py_world offline sound_disk)
           "https://www.sucai999.com/pic/cate/265_324-1.html"
           (img [("src", ""); ("alt", "Cat")]%string)); reflexivity.
Defined.

Lemma extract_loop_in_order w base_url l acc res :
  extract_loop w base_url l acc = Ret res ->
  exists added,
    res = (acc ++ added)%list /\
    Forall2
      (fun img_tag r =>
         exists v, source_of img_tag = Some v /\
                   absolute_url w base_url v = Ret (url r))
      (List.filter accepted l) added.
Proof.
  revert acc; induction l as [|t l IH]; intros acc; simpl.
  - intros [= <-]. exists []. rewrite app_nil_r. split; [reflexivity|constructor].
  - intros (acc' & Hstep & Hloop)%obind_Ret.
    apply obind_Ret in Hstep as (o & Hrec & Ho).
    destruct (IH _ Hloop) as (added & -> & Hall).
    destruct o as [r0|]; injection Ho as <-.
    + rewrite (record_of_Some_accepted _ _ _ _ _ Hrec).
      exists (r0 :: added). rewrite <- app_assoc. split; [reflexivity|].
      constructor; [|exact Hall].
      apply record_of_fields in Hrec as (v & Hv & _ & Hu & _). eauto.
    + rewrite (record_of_None _ _ _ _ Hrec). eauto.
Qed.

(** When [extract_image_urls] returns, its records are those of the accepted
    elements, one for each and in document order, each with the absolute
    form of the source of its element. *)
Theorem extract_keeps_document_order (w : World) (page_soup : BeautifulSoup)
  (base_url : string) (l : list ImageRecord) :
  extract_image_urls w page_soup base_url = Ret l ->
  Forall2
    (fun img_tag r =>
       exists v, source_of img_tag = Some v /\
                 absolute_url w base_url v = Ret (url r))
    (List.filter accepted (find_all_img page_soup)) l.
Proof.
  unfold extract_image_urls.
  intros (added & -> & Hall)%extract_loop_in_order. exact Hall.
Qed.

Lemma extract_keeps_document_order_witness :
  Forall2
    (fun img_tag r =>
       exists v, source_of img_tag = Some v /\
                 absolute_url (py_world offline sound_disk)
                   "https://www.sucai999.com/pic/cate/265_324-1.html" v = Ret (url r))
    (List.filter accepted
       [img [("src", "/images/logo.png")]%string;
        img [("data-src", "/p/b.jpg")]%string;
        img [("alt", "no source")]%string;
        img [("src", "https://cdn.example.com/a.jpg")]%string])
    [ {| url := "https://www.sucai999.com/p/b.jpg"; title := "b.jpg";
         filename := "b.jpg" |};
      {| url := "https://cdn.example.com/a.jpg"; title := "a.jpg";
         filename := "a.jpg" |} ].
Proof.
  apply (extract_keeps_document_order (py_world offline sound_disk)
           {| find_all_img :=
                [img [("src", "/images/logo.png")]%string;
                 img [("data-src", "/p/b.jpg")]%string;
                 img [("alt", "no source")]%string;
                 img [("src", "https://cdn.example.com/a.jpg")]%string] |}
           "https://www.sucai999.com/pic/cate/265_324-1.html").
  vm_compute. reflexivity.
Defined.

(** Every record has a title and a file name that are not empty: the chain
    of fall-backs ends with a placeholder. *)
Theorem extract_titles_and_filenames_nonempty (w : World)
  (page_soup : BeautifulSoup) (base_url : string) (l : list ImageRecord)
  (r : ImageRecord) :
  extract_image_urls w page_soup base_url = Ret l ->
  In r l ->
  title r <> EmptyString /\ filename r <> EmptyString.
Proof.
  intros Hl Hr.
  destruct (extract_image_urls_In w base_url page_soup l r Hl Hr)
    as (img_tag & n & _ & Hrec).
  apply record_of_fields in Hrec as (v & _ & _ & _ & Ht & Hf).
  split.
  - eapply title_of_nonempty, Ht.
  - apply filename_of_spec in Hf as (p & _ & ->).
    now apply or_else_nonempty.
Qed.

Lemma extract_titles_and_filenames_nonempty_witness :
  title {| url := "https://cdn.example.com/"; title := "image_0";
           filename := "image_0.jpg" |} <> EmptyString /\
  filename {| url := "https://cdn.example.com/"; title := "image_0";
              filename := "image_0.jpg" |} <> EmptyString.
Proof.
  apply (extract_titles_and_filenames_nonempty (py_world offline sound_disk)
           {| find_all_img := [img [("src", "https://cdn.example.com/")]%string] |}
           "https://www.sucai999.com/pic/cate/265_324-1.html"
           [ {| url := "https://cdn.example.com/"; title := "image_0";
                filename := "image_0.jpg" |} ]).
  - vm_compute. reflexivity.
  - left. reflexivity.
Defined.

(** The number in a placeholder file name is the position of the record in
    the result, counting from 0: a record whose URL has a path without a
    last component is named [image_k.jpg], [k] being the number of records
    before it. *)
Theorem extract_placeholder_counts_records (w : World) (page_soup : BeautifulSoup)
  (base_url : string) (l : list ImageRecord) (k : nat) (r : ImageRecord)
  (p : string) :
  extract_image_urls w page_soup base_url = Ret l ->
  nth_error l k = Some r ->
  urlparse_path w (url r) = Ret p ->
  PyUrl.basename p = EmptyString ->
  filename r = ("image_" ++ PyStr.of_nat k ++ ".jpg")%string.
Proof.
  unfold extract_image_urls.
  intros (added & -> & Hlen & Hidx)%extract_loop_indexed Hk Hp Hb.
  simpl in Hk.
  assert (Hlt : k < List.length (List.filter accepted (find_all_img page_soup))).
  { rewrite <- Hlen. apply nth_error_Some. congruence. }
  destruct (nth_error (List.filter accepted (find_all_img page_soup)) k)
    as [img_tag|] eqn:Et; [|apply nth_error_None in Et; lia].
  destruct (Hidx k img_tag Et) as (r' & Hr' & Hrec).
  simpl in Hr'. rewrite Hk in Hr'. injection Hr' as <-. simpl in Hrec.
  apply record_of_fields in Hrec as (v & _ & _ & _ & _ & Hf).
  apply filename_of_spec in Hf as (p' & Hp' & ->).
  rewrite Hp in Hp'. injection Hp' as <-. now rewrite Hb.
Qed.

Lemma extract_placeholder_counts_records_witness :
  filename {| url := "https://cdn.example.com/"; title := "Dog";
              filename := "image_1.jpg" |} =
  ("image_" ++ PyStr.of_nat 1 ++ ".jpg")%string.
Proof.
  apply (extract_placeholder_counts_records (py_world offline sound_disk)
           {| find_all_img :=
                [img [("alt", "no source")]%string;
                 img [("src", "https://cdn.example.com/a.jpg")]%string;
                 img [("src", "https://cdn.example.com/"); ("alt", "Dog")]%string] |}
           "https://www.sucai999.com/pic/cate/265_324-1.html"
           [ {| url := "https://cdn.example.com/a.jpg"; title := "a.jpg";
                filename := "a.jpg" |};
             {| url := "https://cdn.example.com/"; title := "Dog";
                filename := "image_1.jpg" |} ]
           1 _ "/").
  - vm_compute. reflexivity.
  - reflexivity.
  - vm_compute. reflexivity.
  - reflexivity.
Defined.

(** [extract_image_urls] returns exactly when, for every accepted element,
    the source can be made absolute and the absolute URL can be parsed;
    otherwise it raises. The elements that are skipped are never looked
    at. *)
Theorem extract_returns_iff_urls_parse (w : World) (page_soup : BeautifulSoup)
  (base_url : string) :
  (exists l, extract_image_urls w page_soup base_url = Ret l) <->
  (forall img_tag v,
     In img_tag (find_all_img page_soup) ->
     source_of img_tag = Some v -> is_skipped v = false ->
     exists u p, absolute_url w base_url v = Ret u /\ urlparse_path w u = Ret p).
Proof.
  unfold extract_image_urls. generalize (@nil ImageRecord) as acc.
  induction (find_all_img page_soup) as [|t l IH]; intros acc; simpl.
  - split; [intros _ ? ? []|eauto].
  - split.
    + intros [res (acc' & Hstep & Hloop)%obind_Ret] img_tag v [<-|Hin] Hv Hs.
      * apply obind_Ret in Hstep as (o & Hrec & _).
        unfold record_of in Hrec. rewrite Hv, Hs in Hrec.
        apply obind_Ret in Hrec as (u & Hu & H).
        apply obind_Ret in H as (ti & _ & H).
        apply obind_Ret in H as (f & Hf & _).
        apply filename_of_spec in Hf as (p & Hp & _). eauto.
      * eapply (proj1 (IH acc')); eauto.
    + intros H. unfold extract_step, record_of.
      destruct (source_of t) as [v|] eqn:Ev; simpl; [|apply IH; eauto].
      destruct (is_skipped v) eqn:Es; simpl; [apply IH; eauto|].
      destruct (H t v (or_introl eq_refl) Ev Es) as (u & p & Hu & Hp).
      rewrite Hu. simpl.
      assert (Ht : exists ti, title_of w t u (List.length acc) = Ret ti).
      { unfold title_of. destruct (PyStr.is_empty _); [|eauto].
        rewrite Hp. simpl. eauto. }
      destruct Ht as [ti ->]. simpl. unfold filename_of. rewrite Hp. simpl.
      apply IH. eauto.
Qed.

(** ** What a computation leaves as it was *)

#[local] Instance emits_preorder P : PreOrder (emits P).
Proof.
  split.
  - intros st. exists []. now rewrite app_nil_r.
  - intros s1 s2 s3 (t1 & H1 & P1) (t2 & H2 & P2). exists (t1 ++ t2)%list.
    rewrite H2, H1, app_assoc, forallb_app, P1, P2. auto.
Qed.

#[local] Instance frame_preorder P : PreOrder (frame P).
Proof.
  split.
  - intros st q _. reflexivity.
  - intros s1 s2 s3 H1 H2 q Hq. now rewrite (H2 q Hq), (H1 q Hq).
Qed.

Section Preserves.

Variable R : State -> State -> Prop.
Context `{!PreOrder R}.

Lemma preserves_ret {A} (a : A) : preserves R (ret a).
Proof. intros st. simpl. reflexivity. Qed.

Lemma preserves_raise {A} (e : exn) : preserves R (@raise A e).
Proof. intros st. simpl. reflexivity. Qed.

Lemma preserves_lift {A} (o : outcome A) : preserves R (lift o).
Proof. intros st. simpl. reflexivity. Qed.

Lemma preserves_of_option o : preserves R (of_option o).
Proof. destruct o; [apply preserves_raise|apply preserves_ret]. Qed.

Lemma preserves_bind {A B} (m : M A) (k : A -> M B) :
  preserves R m -> (forall a, preserves R (k a)) -> preserves R (bind m k).
Proof.
  intros Hm Hk st. rewrite bind_run. specialize (Hm st).
  destruct (m st) as [[a|e] st1]; simpl in *; [|exact Hm].
  etransitivity; [exact Hm|apply Hk].
Qed.

Lemma preserves_try_except {A} (m : M A) (handler : exn -> M A) :
  preserves R m -> (forall e, preserves R (handler e)) ->
  preserves R (try_except m handler).
Proof.
  intros Hm Hh st. unfold try_except. specialize (Hm st).
  destruct (m st) as [[a|e] st1]; simpl in *; [exact Hm|].
  etransitivity; [exact Hm|apply Hh].
Qed.

Lemma preserves_try_finally {A} (m : M A) (cleanup : M unit) :
  preserves R m -> preserves R cleanup -> preserves R (try_finally m cleanup).
Proof.
  intros Hm Hc st. unfold try_finally. specialize (Hm st).
  destruct (m st) as [r st1]. specialize (Hc st1).
  destruct (cleanup st1) as [[[]|e] st2]; simpl in *;
    (etransitivity; [exact Hm|exact Hc]).
Qed.

Lemma preserves_for_each {A S} (l : list A) (body : S -> A -> M S) s :
  (forall s x, preserves R (body s x)) -> preserves R (for_each l body s).
Proof.
  intros Hb. revert s; induction l as [|x l IH]; intros s; simpl.
  - apply preserves_ret.
  - apply preserves_bind; auto.
Qed.

End Preserves.

Lemma preserves_emit_emits P e : P e = true -> preserves (emits P) (emit e).
Proof. intros H st. exists [e]. simpl. now rewrite H. Qed.

Lemma preserves_set_file_emits P path data : preserves (emits P) (set_file path data).
Proof. intros st. exists []. simpl. now rewrite app_nil_r. Qed.

Lemma preserves_append_file_emits P path data :
  preserves (emits P) (append_file path data).
Proof. intros st. exists []. simpl. now rewrite app_nil_r. Qed.

Lemma preserves_get_emits P w u timeout stream :
  P (EvGet u timeout stream) = true -> preserves (emits P) (get w u timeout stream).
Proof. intros H st. exists [EvGet u timeout stream]. simpl. now rewrite H. Qed.

Lemma preserves_os_call_emits P w e : P e = true -> preserves (emits P) (os_call w e).
Proof.
  intros H st. exists [e]. rewrite os_call_run. simpl. now rewrite H.
Qed.

Lemma preserves_emit_frame P e : preserves (frame P) (emit e).
Proof. intros st q _. reflexivity. Qed.

Lemma preserves_get_frame P w u timeout stream :
  preserves (frame P) (get w u timeout stream).
Proof. intros st q _. reflexivity. Qed.

Lemma preserves_os_call_frame P w e : preserves (frame P) (os_call w e).
Proof. intros st q _. now rewrite os_call_run. Qed.

Lemma preserves_set_file_frame (P : string -> Prop) path data :
  ~ P path -> preserves (frame P) (set_file path data).
Proof.
  intros H st q Hq. simpl. apply lookup_insert_ne. now intros ->.
Qed.

Lemma preserves_append_file_frame (P : string -> Prop) path data :
  ~ P path -> preserves (frame P) (append_file path data).
Proof.
  intros H st q Hq. simpl. apply lookup_insert_ne. now intros ->.
Qed.

Lemma preserves_frame_weaken (P Q : string -> Prop) {A} (m : M A) :
  (forall q, Q q -> P q) -> preserves (frame P) m -> preserves (frame Q) m.
Proof. intros H Hm st q Hq. apply Hm, H, Hq. Qed.

Lemma quiet_trace t :
  forallb is_quiet t = true -> get_urls t = [] /\ sleeps t = [].
Proof.
  induction t as [|e t IH]; simpl; [auto|].
  intros [He Ht]%andb_true_iff. destruct (IH Ht) as [-> ->].
  destruct e; simpl in *; auto; discriminate.
Qed.

(** One step of a proof that a computation preserves a relation: a closure
    lemma, with the side condition on a single call closed by
    computation. *)
Ltac preserve_step :=
  match goal with
  | |- PreOrder _ => apply _
  | |- preserves _ (ret _) => apply preserves_ret
  | |- preserves _ (raise _) => apply preserves_raise
  | |- preserves _ (lift _) => apply preserves_lift
  | |- preserves _ (of_option _) => apply preserves_of_option
  | |- preserves _ (bind _ _) => apply preserves_bind
  | |- preserves _ (try_except _ _) => apply preserves_try_except
  | |- preserves _ (try_finally _ _) => apply preserves_try_finally
  | |- preserves _ (for_each _ _ _) => apply preserves_for_each
  | |- preserves (emits _) (emit _) => apply preserves_emit_emits; reflexivity
  | |- preserves (emits _) (get _ _ _ _) => apply preserves_get_emits; reflexivity
  | |- preserves (emits _) (os_call _ _) => apply preserves_os_call_emits; reflexivity
  | |- preserves (emits _) (set_file _ _) => apply preserves_set_file_emits
  | |- preserves (emits _) (append_file _ _) => apply preserves_append_file_emits
  | |- preserves (frame _) (emit _) => apply preserves_emit_frame
  | |- preserves (frame _) (get _ _ _ _) => apply preserves_get_frame
  | |- preserves (frame _) (os_call _ _) => apply preserves_os_call_frame
  | |- preserves _ (match ?x with _ => _ end) => destruct x
  | |- forall _, _ => intros ?
  end.

Ltac preserve := repeat preserve_step.

(** ** [download_image], continued *)

Lemma download_image_frame w img_url save_path :
  preserves (frame (fun q => q <> save_path)) (download_image w img_url save_path).
Proof.
  unfold download_image, download_body, with_open, write_chunks, write, print.
  preserve; try (apply preserves_set_file_frame; tauto);
    try (apply preserves_append_file_frame; tauto).
Qed.

(** [download_image] changes no file but its destination. When the request
    raises or the status check fails it does nothing more than print the
    failure: no directory is made and no file is opened. *)
Theorem download_image_touches_only_destination (w : World)
  (img_url save_path : string) (st : State) :
  (forall q, q <> save_path ->
     files (snd (download_image w img_url save_path st)) !! q = files st !! q) /\
  (forall e, requests_get w (trace st) img_url = Raise e ->
     download_image w img_url save_path st =
     (Ret false,
      extend st [EvGet img_url 30 true; EvPrint (LogDownloadFailed img_url e)])) /\
  (forall r e, requests_get w (trace st) img_url = Ret r ->
     status_error r = Some e ->
     download_image w img_url save_path st =
     (Ret false,
      extend st [EvGet img_url 30 true; EvPrint (LogDownloadFailed img_url e)])).
Proof.
  split; [|split].
  - intros q Hq. now apply (download_image_frame w img_url save_path st).
  - intros e He. rewrite download_image_run. unfold download_body.
    rewrite bind_run, get_run, He, extend_extend. reflexivity.
  - intros r e Hr He. rewrite download_image_run. unfold download_body.
    rewrite bind_run, get_run, Hr, bind_run, He. simpl.
    rewrite extend_extend. reflexivity.
Qed.

Lemma download_image_touches_only_destination_witness :
  download_image (py_world offline sound_disk)
    "https://cdn.example.com/a.jpg" "downloaded_images/0001_a.jpg" initial =
  (Ret false,
   extend initial
     [EvGet "https://cdn.example.com/a.jpg" 30 true;
      EvPrint (LogDownloadFailed "https://cdn.example.com/a.jpg" RequestException)]).
Proof.
  apply (download_image_touches_only_destination (py_world offline sound_disk)
           "https://cdn.example.com/a.jpg" "downloaded_images/0001_a.jpg" initial).
  reflexivity.
Defined.

(** The trace of a download: the request, then calls that are neither a
    request nor a pause. *)
Lemma download_image_trace w img_url save_path st :
  exists b t,
    download_image w img_url save_path st =
      (Ret b, snd (download_image w img_url save_path st)) /\
    trace (snd (download_image w img_url save_path st)) =
      (trace st ++ EvGet img_url 30 true :: t)%list /\
    forallb is_quiet t = true.
Proof.
  assert (Hrest : forall r : Response,
    preserves (emits is_quiet)
      (of_option (status_error r) ;;
       os_call w (EvMakedirs (PyUrl.dirname save_path)) ;;
       with_open w save_path (write_chunks w save_path r) ;;
       ret true)).
  { intros r. unfold with_open, write_chunks, write. preserve. }
  rewrite download_image_run. unfold download_body. rewrite bind_run, get_run.
  destruct (requests_get w (trace st) img_url) as [r|e].
  - destruct (Hrest r (extend st [EvGet img_url 30 true])) as (t & Ht & Hq).
    destruct ((_ ;; _) (extend st [EvGet img_url 30 true])) as [[b|e] st2];
      simpl in Ht.
    + exists b, t. simpl. rewrite Ht, <- app_assoc. auto.
    + exists false, (t ++ [EvPrint (LogDownloadFailed img_url e)])%list. simpl.
      rewrite Ht, <- !app_assoc, forallb_app, Hq. auto.
  - exists false, [EvPrint (LogDownloadFailed img_url e)]. simpl.
    rewrite <- app_assoc. auto.
Qed.

(** ** [save_images], continued *)

Section SaveMore.

Variable w : World.

Lemma download_step_run total p img_data st :
  exists (ok : bool) t,
    download_step w total p img_data st =
      (Ret {| idx := S (idx p);
              success_count := if ok then S (success_count p) else success_count p |},
       snd (download_step w total p img_data st)) /\
    trace (snd (download_step w total p img_data st)) = (trace st ++ t)%list /\
    get_urls t = [url img_data] /\
    sleeps t = [500%N].
Proof.
  unfold download_step, print, sleep. rewrite bind_run, emit_run, bind_run.
  set (st1 := extend st _).
  destruct (download_image_trace w (url img_data) (save_path_of (idx p) img_data) st1)
    as (ok & t & E & Ht & Hq).
  rewrite E. rewrite bind_run, emit_run. unfold ret. simpl.
  exists ok. eexists. split; [reflexivity|].
  rewrite Ht. unfold st1. simpl. rewrite <- !app_assoc. split; [reflexivity|].
  destruct (quiet_trace t Hq) as [Hg Hs].
  simpl. rewrite get_urls_app, sleeps_app, Hg, Hs. auto.
Qed.

Lemma download_loop_run total l p st :
  exists p' t,
    for_each l (download_step w total) p st =
      (Ret p', snd (for_each l (download_step w total) p st)) /\
    trace (snd (for_each l (download_step w total) p st)) = (trace st ++ t)%list /\
    get_urls t = List.map url l /\
    sleeps t = List.repeat 500%N (List.length l) /\
    idx p' = idx p + List.length l /\
    success_count p' <= success_count p + List.length l.
Proof.
  revert p st; induction l as [|r l IH]; intros p st.
  - exists p, []. simpl. rewrite app_nil_r. repeat split; auto; lia.
  - rewrite for_each_cons.
    destruct (download_step_run total p r st) as (ok & t1 & E1 & Ht1 & Hg1 & Hs1).
    rewrite E1.
    destruct (IH {| idx := S (idx p);
                    success_count := if ok then S (success_count p)
                                     else success_count p |}
                 (snd (download_step w total p r st)))
      as (p' & t2 & E2 & Ht2 & Hg2 & Hs2 & Hi & Hc).
    exists p', (t1 ++ t2)%list. rewrite E2 at 1. simpl snd.
    split; [reflexivity|].
    rewrite Ht2, Ht1, <- app_assoc, get_urls_app, sleeps_app, Hg1, Hg2, Hs1, Hs2.
    simpl in *. repeat split; auto; try lia.
    destruct ok; simpl in *; lia.
Qed.

End SaveMore.

(** With [download=True], and the manifest written as it is with
    [download=False], [save_images] goes on to request every record once,
    in the order of the list, pauses half a second after each one whether
    the download succeeded or not, and returns after a summary whose count
    of successes is at most the number of records. *)
Theorem save_images_downloads_every_record (w : World)
  (image_data_list : list ImageRecord) (st : State) :
  fst (save_images w image_data_list false st) = Ret tt ->
  exists st' t k,
    save_images w image_data_list true st = (Ret tt, st') /\
    trace st' =
      (trace (snd (save_images w image_data_list false st)) ++
       EvPrint LogDownloadStart :: t ++
       [EvPrint (LogDownloadDone k (List.length image_data_list))])%list /\
    get_urls t = List.map url image_data_list /\
    sleeps t = List.repeat 500%N (List.length image_data_list) /\
    k <= List.length image_data_list.
Proof.
  rewrite !save_images_run.
  destruct ((_ ;; _) st) as [[[]|e] st1]; simpl; [|discriminate].
  intros _. unfold print. rewrite bind_run, emit_run, bind_run.
  set (st2 := extend st1 _).
  destruct (download_loop_run w (List.length image_data_list) image_data_list
              {| idx := 1; success_count := 0 |} st2)
    as (p' & t & E & Ht & Hg & Hs & _ & Hc).
  rewrite E. rewrite emit_run.
  eexists _, t, (success_count p'). split; [reflexivity|].
  simpl. rewrite Ht. unfold st2. simpl. rewrite <- !app_assoc.
  split; [reflexivity|]. auto.
Qed.

Lemma save_images_downloads_every_record_witness :
  exists st' t k,
    save_images (py_world offline sound_disk)
      [ {| url := "https://cdn.example.com/a.jpg"; title := "Cat";
           filename := "a.jpg" |} ] true initial = (Ret tt, st') /\
    trace st' =
      (trace (snd (save_images (py_world offline sound_disk)
                     [ {| url := "https://cdn.example.com/a.jpg"; title := "Cat";
                          filename := "a.jpg" |} ] false initial)) ++
       EvPrint LogDownloadStart :: t ++ [EvPrint (LogDownloadDone k 1)])%list /\
    get_urls t =
      List.map url [ {| url := "https://cdn.example.com/a.jpg"; title := "Cat";
                        filename := "a.jpg" |} ] /\
    sleeps t = List.repeat 500%N 1 /\
    k <= 1.
Proof.
  apply (save_images_downloads_every_record (py_world offline sound_disk)
           [ {| url := "https://cdn.example.com/a.jpg"; title := "Cat";
                filename := "a.jpg" |} ] initial).
  reflexivity.
Defined.

Lemma save_path_of_not_outside idx img_data :
  ~ outside_save_dir (save_path_of idx img_data).
Proof.
  destruct (save_path_of_in_save_dir_aux idx img_data) as (name & -> & _).
  unfold outside_save_dir.
  assert (H : PyStr.startswith "downloaded_images/" ("downloaded_images/" ++ name) = true).
  { apply startswith_app. eauto. }
  rewrite H. discriminate.
Qed.

(** Whatever [download] is and whatever fails, [save_images] changes no
    file outside [SAVE_DIR]. *)
Theorem save_images_stays_in_save_dir (w : World)
  (image_data_list : list ImageRecord) (download : bool) (st : State) (q : string) :
  PyStr.startswith "downloaded_images/" q = false ->
  files (snd (save_images w image_data_list download st)) !! q = files st !! q.
Proof.
  intros Hq.
  assert (H : preserves (frame outside_save_dir)
                (save_images w image_data_list download)).
  { unfold save_images, with_open, write, download_step, print, sleep.
    preserve;
      try (apply preserves_set_file_frame; unfold outside_save_dir; discriminate);
      try (apply preserves_append_file_frame; unfold outside_save_dir; discriminate).
    apply (preserves_frame_weaken
             (fun q => q <> save_path_of (idx s) x)); [|apply download_image_frame].
    intros q' Hq' ->. now apply save_path_of_not_outside in Hq'. }
  now apply (H st q).
Qed.

Lemma save_images_stays_in_save_dir_witness :
  files (snd (save_images (py_world (serving sample_response) sound_disk)
                [ {| url := "https://cdn.example.com/a.jpg"; title := "Cat";
                     filename := "../../etc/passwd" |} ] true initial))
    !! "/etc/passwd"%string = (∅ : gmap string string) !! "/etc/passwd"%string.
Proof.
  apply (save_images_stays_in_save_dir (py_world (serving sample_response) sound_disk)
           [ {| url := "https://cdn.example.com/a.jpg"; title := "Cat";
                filename := "../../etc/passwd" |} ] true initial "/etc/passwd").
  reflexivity.
Defined.

(** ** [crawl_images], continued *)

Lemma merge_step_seen c r st :
  url r ∈ seen_urls c -> merge_step c r st = (Ret c, st).
Proof.
  intros H. unfold merge_step. now destruct (decide (url r ∈ seen_urls c)).
Qed.

Lemma merge_loop_seen l c st :
  (forall r, In r l -> url r ∈ seen_urls c) ->
  for_each l merge_step c st = (Ret c, st).
Proof.
  induction l as [|r l IH]; intros H; [reflexivity|].
  rewrite for_each_cons, merge_step_seen by (apply H; now left).
  apply IH. intros r' Hr'. apply H. now right.
Qed.

(** Records that went through the merge once add nothing when they go
    through it again, and print nothing: a page that comes twice counts
    once. *)
Theorem merge_again_adds_nothing (l : list ImageRecord) (c c' : Crawl)
  (st st' : State) :
  for_each l merge_step c st = (Ret c', st') ->
  for_each l merge_step c' st' = (Ret c', st').
Proof.
  destruct (merge_loop l c st) as (t & -> & _). intros [= <- <-].
  apply merge_loop_seen. intros r Hr. simpl.
  apply elem_of_union_r, elem_of_list_to_set, list_elem_of_In, in_map, Hr.
Qed.

Lemma merge_again_adds_nothing_witness :
  for_each [ {| url := "https://cdn.example.com/x.jpg"; title := "x.jpg";
                filename := "x.jpg" |} ] merge_step
    (merged {| all_image_data := []; seen_urls := ∅ |}
       [ {| url := "https://cdn.example.com/x.jpg"; title := "x.jpg";
            filename := "x.jpg" |} ])
    (extend initial [EvPrint (LogImage "x.jpg")]) =
  (Ret (merged {| all_image_data := []; seen_urls := ∅ |}
          [ {| url := "https://cdn.example.com/x.jpg"; title := "x.jpg";
               filename := "x.jpg" |} ]),
   extend initial [EvPrint (LogImage "x.jpg")]).
Proof.
  apply (merge_again_adds_nothing
           [ {| url := "https://cdn.example.com/x.jpg"; title := "x.jpg";
                filename := "x.jpg" |} ]
           {| all_image_data := []; seen_urls := ∅ |} _ initial).
  vm_compute. reflexivity.
Defined.

(** [crawl_images] makes no call of the file system and changes no file,
    whether it returns or raises. *)
Theorem crawl_images_leaves_files (w : World) (max_pages : Z) (st : State) :
  exists r t,
    crawl_images w max_pages st = (r, extend st t) /\
    forallb (fun e => negb (is_os_call e)) t = true.
Proof.
  assert (H : preserves (emits (fun e => negb (is_os_call e)))
                (crawl_images w max_pages)).
  { unfold crawl_images, page_step, fetch_page, merge_step, print, sleep.
    preserve. }
  destruct (crawl_images_run w max_pages st) as (r & t & E & _).
  exists r, t. split; [exact E|].
  destruct (H st) as (t' & Ht' & Hp). rewrite E in Ht'. simpl in Ht'.
  apply app_inv_head in Ht'. now subst.
Qed.

Lemma range1_In n m : In n (range1 (m + 1)) -> (1 <= n <= m)%Z.
Proof.
  unfold range1. rewrite in_map_iff. intros (k & <- & Hk).
  apply in_seq in Hk. lia.
Qed.

Section CrawlMore.

Variable w : World.
Variable max_pages : Z.

(** The pages the crawl fetches can be extracted: the code resolves the
    images of a page against the URL it requested the page from. *)
Hypothesis pages_parse :
  forall h n r,
    (1 <= n <= max_pages)%Z ->
    requests_get w h (BASE_URL_format n) = Ret r ->
    status_error r = None -> parse_error r = None ->
    exists l, extract_image_urls w (page r) (BASE_URL_format n) = Ret l.

Lemma page_outcome_returns page_num st :
  (1 <= page_num <= max_pages)%Z ->
  exists l, fst (page_outcome w max_pages page_num st) = Ret l.
Proof.
  intros Hn. unfold page_outcome, fetched.
  destruct (requests_get w _ (BASE_URL_format page_num)) as [r|e] eqn:E;
    [|simpl; eauto].
  destruct (status_error r) eqn:Es; [simpl; eauto|].
  destruct (parse_error r) eqn:Ep; [simpl; eauto|].
  destruct (pages_parse _ _ _ Hn E Es Ep) as [l ->].
  simpl. eauto.
Qed.

Lemma crawl_loop_returns pages c st :
  (forall n, In n pages -> (1 <= n <= max_pages)%Z) ->
  exists c' t,
    for_each pages (page_step w max_pages) c st = (Ret c', extend st t) /\
    get_urls t = List.map BASE_URL_format pages /\
    ((forall h n, (1 <= n <= max_pages)%Z ->
        exists r, requests_get w h (BASE_URL_format n) = Ret r /\
                  status_error r = None /\ parse_error r = None) ->
     sleeps t = List.repeat 1000%N (List.length pages)).
Proof.
  revert c st; induction pages as [|n pages IH]; intros c st Hin.
  - exists c, []. simpl. rewrite extend_nil. auto.
  - rewrite for_each_cons.
    assert (Hn : (1 <= n <= max_pages)%Z) by (apply Hin; now left).
    destruct (page_step_run w max_pages c n st) as (t1 & -> & Hg1 & Hs1).
    destruct (page_outcome_returns n st Hn) as [l El]. rewrite El.
    destruct (IH (merged c l) (extend st t1)) as (c' & t2 & -> & Hg2 & Hs2).
    { intros k Hk. apply Hin. now right. }
    exists c', (t1 ++ t2)%list. rewrite extend_extend, get_urls_app, Hg1, Hg2.
    split; [reflexivity|]. split; [reflexivity|].
    intros Hnet. rewrite sleeps_app, (Hs2 Hnet), Hs1. simpl. f_equal.
    unfold page_outcome, fetched in *.
    destruct (Hnet (trace (extend st [EvPrint (LogPageVisit n max_pages
                                                 (BASE_URL_format n))]))
                n Hn) as (r & Hr & Hst & Hp).
    rewrite Hr, Hst, Hp in *.
    destruct (extract_image_urls w (page r) (BASE_URL_format n));
      [reflexivity|discriminate].
Qed.

Lemma crawl_images_returns st :
  exists res t,
    crawl_images w max_pages st = (Ret res, extend st t) /\
    get_urls t = List.map BASE_URL_format (range1 (max_pages + 1)) /\
    ((forall h n, (1 <= n <= max_pages)%Z ->
        exists r, requests_get w h (BASE_URL_format n) = Ret r /\
                  status_error r = None /\ parse_error r = None) ->
     sleeps t = List.repeat 1000%N (Z.to_nat max_pages)).
Proof.
  unfold crawl_images, print. rewrite bind_run, emit_run, bind_run.
  destruct (crawl_loop_returns (range1 (max_pages + 1))
              {| all_image_data := []; seen_urls := ∅ |}
              (extend st [EvPrint (LogCrawlStart max_pages)]))
    as (c' & t & -> & Hg & Hs).
  { intros n. apply range1_In. }
  rewrite bind_run, emit_run. unfold ret. rewrite !extend_extend.
  eexists _, _. split; [reflexivity|].
  simpl. rewrite get_urls_app, sleeps_app. simpl. rewrite !app_nil_r.
  split; [exact Hg|]. intros Hnet. rewrite (Hs Hnet), range1_length. reflexivity.
Qed.

End CrawlMore.

(** [crawl_images] returns, and has requested each page from 1 to
    [max_pages] once, in order, whatever fetches failed, as soon as the
    extraction returns on every page it fetches: on every response to the
    request of a page from 1 to [max_pages] that passes the status check
    and that the parser accepts, with the URL of that request as the base
    URL, as in the call [extract_image_urls(page_soup, page_url)]. *)
Theorem crawl_images_returns_when_pages_parse (w : World) (max_pages : Z)
  (st : State) :
  (forall h n r,
     (1 <= n <= max_pages)%Z ->
     requests_get w h (BASE_URL_format n) = Ret r ->
     status_error r = None -> parse_error r = None ->
     exists l, extract_image_urls w (page r) (BASE_URL_format n) = Ret l) ->
  exists res t,
    crawl_images w max_pages st = (Ret res, extend st t) /\
    get_urls t = List.map BASE_URL_format (range1 (max_pages + 1)).
Proof.
  intros H. destruct (crawl_images_returns w max_pages H st) as (res & t & E & Hg & _).
  eauto.
Qed.

Lemma crawl_images_returns_when_pages_parse_witness :
  exists res t,
    crawl_images (py_world (serving relative_image_page) sound_disk) 3 initial =
      (Ret res, extend initial t) /\
    get_urls t = List.map BASE_URL_format (range1 (3 + 1)).
Proof.
  apply (crawl_images_returns_when_pages_parse
           (py_world (serving relative_image_page) sound_disk) 3 initial).
  intros h n r Hn [= <-] _ _.
  assert (Hc : n = 1%Z \/ n = 2%Z \/ n = 3%Z) by lia.
  destruct Hc as [->|[->| ->]]; eexists; vm_compute; reflexivity.
Defined.

(** If moreover every fetch succeeds (each request of a page from 1 to
    [max_pages] is answered by a response that passes the status check and
    that the parser accepts), there is one pause of a second for each
    page. *)
Theorem crawl_images_pauses_after_each_page (w : World) (max_pages : Z)
  (st : State) :
  (forall h n r,
     (1 <= n <= max_pages)%Z ->
     requests_get w h (BASE_URL_format n) = Ret r ->
     status_error r = None -> parse_error r = None ->
     exists l, extract_image_urls w (page r) (BASE_URL_format n) = Ret l) ->
  (forall h n,
     (1 <= n <= max_pages)%Z ->
     exists r, requests_get w h (BASE_URL_format n) = Ret r /\
               status_error r = None /\ parse_error r = None) ->
  exists res t,
    crawl_images w max_pages st = (Ret res, extend st t) /\
    sleeps t = List.repeat 1000%N (Z.to_nat max_pages).
Proof.
  intros H Hnet.
  destruct (crawl_images_returns w max_pages H st) as (res & t & E & _ & Hs).
  eauto.
Qed.

Lemma crawl_images_pauses_after_each_page_witness :
  exists res t,
    crawl_images (py_world (serving relative_image_page) sound_disk) 3 initial =
      (Ret res, extend initial t) /\
    sleeps t = List.repeat 1000%N (Z.to_nat 3).
Proof.
  apply (crawl_images_pauses_after_each_page
           (py_world (serving relative_image_page) sound_disk) 3 initial).
  - intros h n r Hn [= <-] _ _.
    assert (Hc : n = 1%Z \/ n = 2%Z \/ n = 3%Z) by lia.
    destruct Hc as [->|[->| ->]]; eexists; vm_compute; reflexivity.
  - intros h n _. exists relative_image_page. repeat split; reflexivity.
Defined.

(** A page the parser rejects is a failed fetch: that page gets no pause,
    and the crawl goes on. *)
Lemma crawl_images_no_pause_for_rejected_page :
  exists res t,
    crawl_images (py_world (serving rejected_page) sound_disk) 3 initial =
      (Ret res, extend initial t) /\
    sleeps t = [] /\
    get_urls t = List.map BASE_URL_format (range1 (3 + 1)).
Proof. eexists _, _. vm_compute. repeat split; reflexivity. Qed.

(** ** [download_image]: a stream that breaks *)

Lemma write_loop_sound w save_path chunks st :
  (forall h e, os_error w h e = false) ->
  exists st',
    for_each chunks
      (fun _ chunk =>
         if PyStr.is_empty chunk then ret tt else write w save_path chunk) tt st =
    (Ret tt, st').
Proof.
  intros Hdisk. revert st; induction chunks as [|c chunks IH]; intros st.
  - eexists. reflexivity.
  - rewrite for_each_cons. cbv beta. destruct c as [|x c].
    + change (PyStr.is_empty EmptyString) with true. cbv iota. apply IH.
    + change (PyStr.is_empty (String x c)) with false. cbv iota.
      rewrite write_run, Hdisk. apply IH.
Qed.

(** When the stream raises after some chunks, on a file system where no
    call fails, [download_image] returns [False] and the destination holds
    the chunks received: a failed download can leave a partial file, and
    what the file held before is lost. *)
Theorem download_image_partial_file (w : World) (img_url save_path : string)
  (st : State) (r : Response) (e : exn) :
  requests_get w (trace st) img_url = Ret r ->
  status_error r = None ->
  content_error r = Some e ->
  (forall h c, os_error w h c = false) ->
  fst (download_image w img_url save_path st) = Ret false /\
  files (snd (download_image w img_url save_path st)) !! save_path =
    Some (payload r).
Proof.
  intros Hr Hst He Hdisk.
  assert (H : exists st',
    download_image w img_url save_path st = (Ret false, st') /\
    files st' !! save_path = Some (payload r)).
  { rewrite download_image_run. unfold download_body.
    rewrite bind_run, get_run, Hr, bind_run, Hst. simpl of_option. unfold ret at 1.
    rewrite bind_run, os_call_run, Hdisk, bind_run, with_open_run, Hdisk.
    unfold write_chunks. rewrite bind_run.
    set (st3 := {| files := _; trace := _ |}).
    pose proof (write_loop w save_path (content r) st3 (files st) EmptyString eq_refl)
      as Hloop.
    destruct (write_loop_sound w save_path (content r) st3 Hdisk) as [st4 E].
    rewrite E in *. destruct Hloop as (Hfiles & _).
    rewrite He. simpl of_option. unfold raise. rewrite Hdisk.
    eexists. split; [reflexivity|]. simpl. rewrite Hfiles. apply lookup_insert_eq. }
  destruct H as (st' & -> & Hf). auto.
Qed.

Lemma download_image_partial_file_witness :
  fst (download_image
         (py_world (serving {| status_error := None; parse_error := None;
                               page := {| find_all_img := [] |};
                               content := ["abc"; "de"]%string;
                               content_error := Some RequestException |})
            sound_disk)
         "https://cdn.example.com/a.jpg" "downloaded_images/0001_a.jpg"
         {| files := {["downloaded_images/0001_a.jpg"%string := "old"%string]};
            trace := [] |}) = Ret false /\
  files (snd (download_image
         (py_world (serving {| status_error := None; parse_error := None;
                               page := {| find_all_img := [] |};
                               content := ["abc"; "de"]%string;
                               content_error := Some RequestException |})
            sound_disk)
         "https://cdn.example.com/a.jpg" "downloaded_images/0001_a.jpg"
         {| files := {["downloaded_images/0001_a.jpg"%string := "old"%string]};
            trace := [] |})) !! "downloaded_images/0001_a.jpg"%string =
    Some (payload {| status_error := None; parse_error := None;
                     page := {| find_all_img := [] |};
                     content := ["abc"; "de"]%string;
                     content_error := Some RequestException |}).
Proof.
  apply (download_image_partial_file _ _ _ _ _ RequestException);
    reflexivity.
Defined.
